(** * pack-for-llm-js: a shallow embedding of [extension.js]

    The extension resolves the resources selected in the explorer to a flat
    list of files ([getAllFilesFromDir], [getFilesFromResources]), renders
    them into one annotated document ([packFiles]) and shows it
    ([activate]).  Every function below is a transcription of the JavaScript
    function of the same name.  Calls into the host (Node's [fs], the
    [vscode] window and workspace) are recorded in a trace of events, and an
    exception is a [Throw] outcome.

    JavaScript strings are modelled by [string]; the characters the code
    inspects ('.', '/', the letters of the extensions) are ASCII. *)

From Stdlib Require Import String Ascii List ZArith NArith Lia Bool.
From Stdlib Require Import DecimalString.
Import ListNotations.

Local Open Scope list_scope.
Local Open Scope string_scope.

(** ** JavaScript string primitives *)

Module Js.

(** One character of [String.prototype.toLowerCase]: 'A'..'Z' move to
    'a'..'z'.  Characters outside ASCII never lower-case to a character
    of the extension table, so they are left alone. *)
Definition lowerChar (c : ascii) : ascii :=
  let n := nat_of_ascii c in
  if (65 <=? n)%nat && (n <=? 90)%nat then ascii_of_nat (n + 32) else c.

Fixpoint toLowerCase (s : string) : string :=
  match s with
  | EmptyString => EmptyString
  | String c rest => String (lowerChar c) (toLowerCase rest)
  end.

(** [s.startsWith(p)] *)
Definition startsWith (s p : string) : bool := String.prefix p s.

(** [s.repeat(n)] *)
Fixpoint repeat (s : string) (n : nat) : string :=
  match n with
  | O => ""
  | S k => s ++ repeat s k
  end.

(** [String(n)] for a non-negative integer. *)
Definition ofNat (n : nat) : string := NilEmpty.string_of_uint (Nat.to_uint n).
Definition ofN (n : N) : string := NilEmpty.string_of_uint (N.to_uint n).

(** [(bytes / 1024).toFixed(1)]: dividing by 1024 is exact in binary
    floating point, and [toFixed] picks the integer [n] with [n / 10]
    nearest to the quotient, the larger one on a tie. *)
Definition kilobytesToFixed1 (bytes : N) : string :=
  let n := ((bytes * 10 + 512) / 1024)%N in
  ofN (n / 10) ++ "." ++ ofN (n mod 10).

(** The line feed, ['\n'] in the source. *)
Definition LF : string := String (ascii_of_nat 10) EmptyString.

(** A JavaScript string is falsy exactly when it is empty. *)
Definition truthy (s : string) : bool := negb (s =? "").

End Js.

(** ** Node's [path] module (POSIX flavour) *)

Module path.

(** The scanner state of [path.extname]; [-1] is "not seen yet". *)
Record ExtScan := mkExtScan {
  startDot : Z;
  startPart : Z;
  endIdx : Z;
  matchedSlash : bool;
  preDotState : Z
}.

Definition extScanInit : ExtScan := mkExtScan (-1) 0 (-1) true 0.

(** One iteration of the backwards loop at index [i]; the boolean is
    [true] when the loop breaks. *)
Definition extStep (i : Z) (code : ascii) (st : ExtScan) : ExtScan * bool :=
  if (code =? "/")%char then
    if negb (matchedSlash st)
    then (mkExtScan (startDot st) (i + 1) (endIdx st) (matchedSlash st) (preDotState st), true)
    else (st, false)
  else
    let st1 :=
      if (endIdx st =? -1)%Z
      then mkExtScan (startDot st) (startPart st) (i + 1) false (preDotState st)
      else st in
    if (code =? ".")%char then
      if (startDot st1 =? -1)%Z
      then (mkExtScan i (startPart st1) (endIdx st1) (matchedSlash st1) (preDotState st1), false)
      else if negb (preDotState st1 =? 1)%Z
      then (mkExtScan (startDot st1) (startPart st1) (endIdx st1) (matchedSlash st1) 1, false)
      else (st1, false)
    else if negb (startDot st1 =? -1)%Z
    then (mkExtScan (startDot st1) (startPart st1) (endIdx st1) (matchedSlash st1) (-1), false)
    else (st1, false).

(** The loop [for (i = path.length - 1; i >= 0; --i)], over the
    characters from the last one backwards. *)
Fixpoint extLoop (backwards : list ascii) (i : Z) (st : ExtScan) : ExtScan :=
  match backwards with
  | [] => st
  | code :: rest =>
      let (st', stop) := extStep i code st in
      if stop then st' else extLoop rest (i - 1) st'
  end.

Definition extScan (p : string) : ExtScan :=
  extLoop (rev (list_ascii_of_string p)) (Z.of_nat (String.length p) - 1) extScanInit.

Definition extNone (st : ExtScan) : bool :=
  (startDot st =? -1)%Z
  || (endIdx st =? -1)%Z
  || (preDotState st =? 0)%Z
  || ((preDotState st =? 1)%Z
      && (startDot st =? endIdx st - 1)%Z
      && (startDot st =? startPart st + 1)%Z).

(** [path.extname(p)] *)
Definition extname (p : string) : string :=
  let st := extScan p in
  if extNone st then ""
  else substring (Z.to_nat (startDot st)) (Z.to_nat (endIdx st - startDot st)) p.

(** The scanner state of [path.basename]. *)
Record BaseScan := mkBaseScan {
  baseStart : Z;
  baseEnd : Z;
  baseMatchedSlash : bool
}.

Definition baseStep (i : Z) (code : ascii) (st : BaseScan) : BaseScan * bool :=
  if (code =? "/")%char then
    if negb (baseMatchedSlash st)
    then (mkBaseScan (i + 1) (baseEnd st) (baseMatchedSlash st), true)
    else (st, false)
  else if (baseEnd st =? -1)%Z
  then (mkBaseScan (baseStart st) (i + 1) false, false)
  else (st, false).

Fixpoint baseLoop (backwards : list ascii) (i : Z) (st : BaseScan) : BaseScan :=
  match backwards with
  | [] => st
  | code :: rest =>
      let (st', stop) := baseStep i code st in
      if stop then st' else baseLoop rest (i - 1) st'
  end.

(** [path.basename(p)] *)
Definition basename (p : string) : string :=
  let st := baseLoop (rev (list_ascii_of_string p)) (Z.of_nat (String.length p) - 1)
              (mkBaseScan 0 (-1) true) in
  if (baseEnd st =? -1)%Z then ""
  else substring (Z.to_nat (baseStart st)) (Z.to_nat (baseEnd st - baseStart st)) p.

Definition endsWithSlash (p : string) : bool :=
  match rev (list_ascii_of_string p) with
  | c :: _ => (c =? "/")%char
  | [] => false
  end.

(** [path.join(dir, name)] for a normalized directory path and one
    directory-entry name, the only way the extension calls it: the name
    follows the directory after exactly one separator. *)
Definition join (dir name : string) : string :=
  if dir =? "" then name
  else if endsWithSlash dir then dir ++ name
  else dir ++ "/" ++ name.

End path.

(** ** The language table *)

(** The object literal [langMap], in source order. *)
Definition langMap : list (string * string) :=
  [ (".js", "javascript");
    (".ts", "typescript");
    (".py", "python");
    (".html", "html");
    (".css", "css");
    (".json", "json");
    (".md", "markdown");
    (".java", "java");
    (".cpp", "cpp");
    (".c", "c");
    (".go", "go");
    (".rb", "ruby");
    (".php", "php");
    (".rs", "rust");
    (".swift", "swift");
    (".sh", "shell");
    (".jsx", "javascriptreact");
    (".tsx", "typescriptreact");
    (".vue", "vue") ].

(** [obj[key]]: [None] is [undefined].  The key is either empty or starts
    with a dot, so no inherited property of [Object.prototype] is hit. *)
Fixpoint property (obj : list (string * string)) (key : string) : option string :=
  match obj with
  | [] => None
  | (k, v) :: rest => if k =? key then Some v else property rest key
  end.

(** [v || ''] *)
Definition orEmpty (v : option string) : string :=
  match v with
  | Some s => if Js.truthy s then s else ""
  | None => ""
  end.

Definition getLanguageId (filePath : string) : string :=
  let ext := Js.toLowerCase (path.extname filePath) in
  orEmpty (property langMap ext).


(** ** Values exchanged with the host *)

(** A [vscode.Uri]; the extension reads nothing but [fsPath]. *)
Record Uri := mkUri { fsPath : string }.

(** [vscode.Uri.file(p)] *)
Definition Uri_file (p : string) : Uri := mkUri p.

(** A thrown JavaScript [Error]. *)
Record Error := mkError { errName : string; errMessage : string }.

(** [Error.prototype.toString], what a template literal prints. *)
Definition Error_toString (e : Error) : string :=
  if errName e =? "" then errMessage e
  else if errMessage e =? "" then errName e
  else errName e ++ ": " ++ errMessage e.

(** A [Date] carried by [fs.Stats] or made by [new Date()]; such dates are
    valid, so [toISOString] returns. *)
Record Date := mkDate { toISOString : string }.

(** The part of [fs.Stats] the extension reads. *)
Record Stats := mkStats { isDirectory : bool; size : N; mtime : Date }.

(** The file system as the three synchronous calls answer; [inl] is the
    exception the call throws. *)
Record FileSystem := mkFileSystem {
  statSync : string -> Error + Stats;
  readdirSync : string -> Error + list string;
  readFileSync : string -> Error + string
}.

(** What the editor answers: the workspace folder of a resource
    ([workspaceFolder.uri.fsPath]), [path.relative], the file name of the
    active editor, and what the open dialog resolves to. *)
Record Host := mkHost {
  getWorkspaceFolder : Uri -> option string;
  relative : string -> string -> string;
  activeTextEditor : option string;
  showOpenDialog : option (list Uri)
}.

(** An argument the command is invoked with. *)
Inductive Arg :=
| ArgUri (u : Uri)
| ArgArray (l : list Uri)
| ArgOther.

(** ** Effects *)

(** Calls that reach outside the extension, in the order they happen. *)
Inductive Event :=
| StatSync (p : string)
| ReaddirSync (p : string)
| ReadFileSync (p : string)
| ShowErrorMessage (msg : string)
| ShowWarningMessage (msg : string)
| ShowInformationMessage (msg : string)
| ProgressReport (msg : string)
| OpenDialog
| OpenTextDocument (content language : string)
| ShowTextDocument (content : string).

(** How a computation ends.  [OutOfFuel] belongs to the model only: the
    recursion of the directory walk is bounded by a fuel argument. *)
Inductive Outcome (A : Type) :=
| Ok (a : A)
| Throw (e : Error)
| OutOfFuel.

Arguments Ok {A} a.
Arguments Throw {A} e.
Arguments OutOfFuel {A}.

(** A computation: the events it emitted and how it ended. *)
Definition M (A : Type) : Type := list Event * Outcome A.

Definition ret {A} (a : A) : M A := ([], Ok a).

Definition bind {A B} (m : M A) (k : A -> M B) : M B :=
  match m with
  | (t, Ok a) => let (t', r) := k a in ((t ++ t')%list, r)
  | (t, Throw e) => (t, Throw e)
  | (t, OutOfFuel) => (t, OutOfFuel)
  end.

Definition emit (ev : Event) : M unit := ([ev], Ok tt).

Arguments ret : simpl never.
Arguments bind : simpl never.

Definition call {A} (ev : Event) (answer : Error + A) : M A :=
  match answer with
  | inr a => ([ev], Ok a)
  | inl e => ([ev], Throw e)
  end.

(** [try { body } catch (err) { handler }] *)
Definition tryCatch {A} (body : M A) (handler : Error -> M A) : M A :=
  match body with
  | (t, Throw e) => let (t', r) := handler e in ((t ++ t')%list, r)
  | other => other
  end.

Declare Scope js_scope.
Delimit Scope js_scope with js.
Notation "x <- m ;; k" := (bind m (fun x => k))
  (at level 61, m at next level, right associativity) : js_scope.
Notation "m ;;; k" := (bind m (fun _ => k))
  (at level 61, right associativity) : js_scope.
Local Open Scope js_scope.

(** [xs.forEach((x, index) => ...)], the callback threading the state it
    mutates; [index] counts from [start]. *)
Fixpoint forEachFrom {A St} (start : nat) (callback : A -> nat -> St -> M St)
    (xs : list A) (s : St) : M St :=
  match xs with
  | [] => ret s
  | x :: rest => s' <- callback x start s ;; forEachFrom (S start) callback rest s'
  end.

Definition forEach {A St} := @forEachFrom A St 0.

Definition events {A} (m : M A) : list Event := fst m.
Definition outcome {A} (m : M A) : Outcome A := snd m.

(** ** The extension *)

Abbreviation LF := Js.LF.

Section Extension.

Variable disk : FileSystem.
Variable host : Host.

Definition fs_statSync (p : string) : M Stats := call (StatSync p) (statSync disk p).
Definition fs_readdirSync (p : string) : M (list string) :=
  call (ReaddirSync p) (readdirSync disk p).
Definition fs_readFileSync (p : string) : M string :=
  call (ReadFileSync p) (readFileSync disk p).

(** The array [fileList] is shared by the whole walk and grows by
    [push]; here it is passed in and handed back. *)
Fixpoint getAllFilesFromDir (fuel : nat) (dirPath : string) (fileList : list Uri)
    : M (list Uri) :=
  match fuel with
  | O => ([], OutOfFuel)
  | S fuel' =>
      files <- fs_readdirSync dirPath ;;
      forEach (fun file _ fileList =>
        let filePath := path.join dirPath file in
        stat <- fs_statSync filePath ;;
        if Js.startsWith file "." then ret fileList
        else if isDirectory stat then getAllFilesFromDir fuel' filePath fileList
        else ret (fileList ++ [Uri_file filePath])%list) files fileList
  end.

(** The [for ... of] loop of [getFilesFromResources] from the resources
    still to come and the current [allFiles]. *)
Fixpoint resourcesLoop (fuel : nat) (resources : list Uri) (allFiles : list Uri)
    : M (list Uri) :=
  match resources with
  | [] => ret allFiles
  | resource :: rest =>
      stat <- fs_statSync (fsPath resource) ;;
      allFiles' <-
        (if isDirectory stat then
           dirFiles <- getAllFilesFromDir fuel (fsPath resource) [] ;;
           ret (allFiles ++ dirFiles)%list
         else ret (allFiles ++ [resource])%list) ;;
      resourcesLoop fuel rest allFiles'
  end.

Definition getFilesFromResources (fuel : nat) (resources : list Uri) : M (list Uri) :=
  resourcesLoop fuel resources [].

(** [workspaceFolder ? path.relative(workspaceFolder.uri.fsPath, fileUri.fsPath)
    : fileUri.fsPath] *)
Definition relativePath (fileUri : Uri) : string :=
  match getWorkspaceFolder host fileUri with
  | Some folder => relative host folder (fsPath fileUri)
  | None => fsPath fileUri
  end.

Definition dividerLength : nat := 80.

(** The first [forEach] of [packFiles]: one line of the table of
    contents. *)
Definition tocEntry (fileUri : Uri) (index : nat) (packedContent : string) : M string :=
  ret (packedContent ++ Js.ofNat (index + 1) ++ ". " ++ relativePath fileUri ++ LF).

(** The second [forEach] of [packFiles]: the block of one file.  Both
    reads come before the first append, so when one of them throws
    [packedContent] is what it was. *)
Definition fileEntry (total : nat) (fileUri : Uri) (index : nat) (packedContent : string)
    : M string :=
  let filePath := fsPath fileUri in
  let relPath := relativePath fileUri in
  let lang := getLanguageId filePath in
  tryCatch
    (content <- fs_readFileSync filePath ;;
     fileStats <- fs_statSync filePath ;;
     let packedContent := packedContent ++ Js.repeat "#" dividerLength ++ LF in
     let packedContent := packedContent ++
       "# FILE " ++ Js.ofNat (index + 1) ++ "/" ++ Js.ofNat total ++ ": " ++ relPath ++ LF in
     let packedContent := packedContent ++
       "# Size: " ++ Js.kilobytesToFixed1 (size fileStats) ++ " KB | Last modified: "
         ++ toISOString (mtime fileStats) ++ LF in
     let packedContent :=
       if Js.truthy lang then packedContent ++ "# Language: " ++ lang ++ LF
       else packedContent in
     let packedContent := packedContent ++ Js.repeat "#" dividerLength ++ LF ++ LF in
     let packedContent :=
       if Js.truthy lang then
         let packedContent := packedContent ++ "```" ++ lang ++ LF in
         let packedContent := packedContent ++ content in
         packedContent ++ LF ++ "```" ++ LF ++ LF
       else packedContent ++ content ++ LF ++ LF in
     ret (packedContent ++ LF ++ Js.repeat "=" dividerLength ++ LF ++ LF))
    (fun err =>
       emit (ShowErrorMessage
               ("Error reading file " ++ relPath ++ ": " ++ Error_toString err)) ;;;
       ret packedContent).

(** [packFiles(files)] at the instant [now]; the parameter [options] is
    never read. *)
Definition packFiles (now : Date) (files : list Uri) : M string :=
  let packedContent := "" in
  let packedContent := packedContent ++ "# Project Files Pack for LLM" ++ LF in
  let packedContent := packedContent ++
    "# Total files: " ++ Js.ofNat (List.length files) ++ LF in
  let packedContent := packedContent ++ "# Generated: " ++ toISOString now ++ LF ++ LF in
  let packedContent := packedContent ++ "## Files included:" ++ LF in
  packedContent <- forEach tocEntry files packedContent ;;
  let packedContent := packedContent ++ LF ++ Js.repeat "=" dividerLength ++ LF ++ LF in
  forEach (fileEntry (List.length files)) files packedContent.

(** [args[0] && args[0].fsPath] *)
Definition firstResource (args : list Arg) : option Uri :=
  match args with
  | ArgUri u :: _ => if Js.truthy (fsPath u) then Some u else None
  | _ => None
  end.

(** Lines 160-175 of the command: the selection found in [args]. *)
Definition resourcesOfArgs (args : list Arg) : list Uri :=
  match args with
  | _ :: ArgArray selected :: _ =>
      match firstResource args with
      | Some first =>
          if existsb (fun r => fsPath r =? fsPath first) selected
          then selected
          else first :: selected
      | None => selected
      end
  | _ =>
      match firstResource args with
      | Some first => [first]
      | None => []
      end
  end.

(** Lines 177-194: the fallback to the active editor or the dialog. *)
Definition selectResources (args : list Arg) : M (list Uri) :=
  let selectedResources := resourcesOfArgs args in
  if (List.length selectedResources =? 0)%nat then
    match activeTextEditor host with
    | Some fileName => ret [Uri_file fileName]
    | None =>
        emit OpenDialog ;;;
        match showOpenDialog host with
        | Some result => ret result
        | None => ret selectedResources
        end
    end
  else ret selectedResources.

(** Lines 196-232: the packing of the selection. *)
Definition packSelection (fuel : nat) (now : Date) (selectedResources : list Uri) : M unit :=
  if (List.length selectedResources =? 0)%nat then
    emit (ShowWarningMessage "No files or folders selected to pack.")
  else
    emit (ProgressReport "Processing selected resources...") ;;;
    tryCatch
      (allFiles <- getFilesFromResources fuel selectedResources ;;
       if (List.length allFiles =? 0)%nat then
         emit (ShowWarningMessage "No files found in the selected resources.")
       else
         emit (ProgressReport
                 ("Packing " ++ Js.ofNat (List.length allFiles) ++ " files...")) ;;;
         content <- packFiles now allFiles ;;
         emit (OpenTextDocument content "markdown") ;;;
         emit (ShowTextDocument content) ;;;
         emit (ShowInformationMessage
                 ("Successfully packed " ++ Js.ofNat (List.length allFiles) ++ " files.")))
      (fun error => emit (ShowErrorMessage ("Error packing files: " ++ errMessage error))).

(** The handler [activate] registers for [extension.packForLlm]. *)
Definition activate (fuel : nat) (now : Date) (args : list Arg) : M unit :=
  selectedResources <- selectResources args ;;
  packSelection fuel now selectedResources.

End Extension.

(** ** The document, as the specification words it

    These definitions follow the description of the packed document; the
    theorems below compare them with what [packFiles] computes. *)

Section Document.

Variable disk : FileSystem.
Variable host : Host.

(** The line of the table of contents with number [number]. *)
Definition tocLine (number : nat) (fileUri : Uri) : string :=
  Js.ofNat number ++ ". " ++ relativePath host fileUri ++ LF.

(** The lines numbered [first], [first + 1], ... for [files]. *)
Fixpoint tocLines (first : nat) (files : list Uri) : string :=
  match files with
  | [] => ""
  | fileUri :: rest => tocLine first fileUri ++ tocLines (S first) rest
  end.

Definition titleLine : string := "# Project Files Pack for LLM" ++ LF.
Definition totalLine (count : nat) : string := "# Total files: " ++ Js.ofNat count ++ LF.
Definition generatedLine (now : Date) : string := "# Generated: " ++ toISOString now ++ LF.
Definition equalsDivider : string := Js.repeat "=" 80 ++ LF.
Definition hashDivider : string := Js.repeat "#" 80 ++ LF.

(** The three header lines every block has. *)
Definition fileLine (total number : nat) (fileUri : Uri) : string :=
  "# FILE " ++ Js.ofNat number ++ "/" ++ Js.ofNat total ++ ": "
    ++ relativePath host fileUri ++ LF.

Definition sizeLine (fileStats : Stats) : string :=
  "# Size: " ++ Js.kilobytesToFixed1 (size fileStats) ++ " KB | Last modified: "
    ++ toISOString (mtime fileStats) ++ LF.

(** The block of a file whose language is [lang]. *)
Definition fencedBlock (total number : nat) (fileUri : Uri) (fileStats : Stats)
    (lang content : string) : string :=
  hashDivider ++ fileLine total number fileUri ++ sizeLine fileStats
    ++ "# Language: " ++ lang ++ LF
    ++ hashDivider ++ LF
    ++ "```" ++ lang ++ LF ++ content ++ LF ++ "```" ++ LF ++ LF
    ++ LF ++ equalsDivider ++ LF.

(** The block of a file without a language. *)
Definition plainBlock (total number : nat) (fileUri : Uri) (fileStats : Stats)
    (content : string) : string :=
  hashDivider ++ fileLine total number fileUri ++ sizeLine fileStats
    ++ hashDivider ++ LF
    ++ content ++ LF ++ LF
    ++ LF ++ equalsDivider ++ LF.

(** What a file contributes to the document: its block when both reads
    succeed, nothing otherwise. *)
Definition fileBlock (total number : nat) (fileUri : Uri) : string :=
  match readFileSync disk (fsPath fileUri), statSync disk (fsPath fileUri) with
  | inr content, inr fileStats =>
      let lang := getLanguageId (fsPath fileUri) in
      if Js.truthy lang
      then fencedBlock total number fileUri fileStats lang content
      else plainBlock total number fileUri fileStats content
  | _, _ => ""
  end.

Fixpoint fileBlocks (total first : nat) (files : list Uri) : string :=
  match files with
  | [] => ""
  | fileUri :: rest => fileBlock total first fileUri ++ fileBlocks total (S first) rest
  end.

(** The error a read of [fileUri] by the formatter throws, if any. *)
Definition readFailure (fileUri : Uri) : option Error :=
  match readFileSync disk (fsPath fileUri), statSync disk (fsPath fileUri) with
  | inl e, _ => Some e
  | inr _, inl e => Some e
  | inr _, inr _ => None
  end.

Definition readWarning (fileUri : Uri) (e : Error) : Event :=
  ShowErrorMessage ("Error reading file " ++ relativePath host fileUri ++ ": "
                      ++ Error_toString e).

(** The calls the formatter makes for one file. *)
Definition fileEvents (fileUri : Uri) : list Event :=
  match readFileSync disk (fsPath fileUri), statSync disk (fsPath fileUri) with
  | inl e, _ => [ReadFileSync (fsPath fileUri); readWarning fileUri e]
  | inr _, inl e =>
      [ReadFileSync (fsPath fileUri); StatSync (fsPath fileUri); readWarning fileUri e]
  | inr _, inr _ => [ReadFileSync (fsPath fileUri); StatSync (fsPath fileUri)]
  end.

(** Everything before the first block. *)
Definition documentHead (now : Date) (files : list Uri) : string :=
  titleLine ++ totalLine (List.length files) ++ generatedLine now ++ LF
    ++ "## Files included:" ++ LF
    ++ tocLines 1 files
    ++ LF ++ equalsDivider ++ LF.

End Document.

(** A path reached from [dirPath] by joining [names] one after the other:
    the last name is the base name of the path, the names before it are
    the base names of its ancestors below [dirPath]. *)
Definition descend (dirPath : string) (names : list string) : string :=
  fold_left path.join names dirPath.

(** A name a directory listing can hold: not empty, without separator. *)
Definition entryName (name : string) : Prop :=
  name <> "" /\ Forall (fun c => c <> "/"%char) (list_ascii_of_string name).

(** The listings of [disk] hold entry names only. *)
Definition wellNamed (disk : FileSystem) : Prop :=
  forall dir files, readdirSync disk dir = inr files -> Forall entryName files.

(** [name] is an entry of a listing of [disk]. *)
Definition listed (disk : FileSystem) (name : string) : Prop :=
  exists dir files, readdirSync disk dir = inr files /\ In name files.

(** Listed names none of which starts with a dot. *)
Definition noneHidden (disk : FileSystem) (names : list string) : Prop :=
  Forall (fun name => listed disk name /\ Js.startsWith name "." = false) names.

(** [p] lies below [dirPath] and neither its own name nor the name of a
    directory between [dirPath] and it starts with a dot. *)
Definition visibleBelow (disk : FileSystem) (dirPath p : string) : Prop :=
  exists names, names <> [] /\ noneHidden disk names /\ p = descend dirPath names.

(** [p] is [dirPath] or a directory visibly below it. *)
Definition visibleFrom (disk : FileSystem) (dirPath p : string) : Prop :=
  exists names, noneHidden disk names /\ p = descend dirPath names.

(** What a walk from [dirPath] may touch: it lists [dirPath] and
    directories visibly below it, and looks at the entries of those. *)
Definition staysVisible (disk : FileSystem) (dirPath : string) (ev : Event) : Prop :=
  match ev with
  | ReaddirSync p => visibleFrom disk dirPath p
  | StatSync p => exists dir name, visibleFrom disk dirPath dir /\ p = path.join dir name
  | _ => False
  end.

(** What the walk of [dirPath] guarantees, whatever list it was given. *)
Definition walkInvariant (disk : FileSystem) (dirPath : string) (fileList : list Uri)
    (m : M (list Uri)) : Prop :=
  Forall (staysVisible disk dirPath) (events m)
  /\ forall out, outcome m = Ok out ->
       exists found, out = (fileList ++ found)%list
                     /\ Forall (fun u => visibleBelow disk dirPath (fsPath u)) found.

(** [p] is [dirPath] followed by one or more names, and neither the base
    name of [p] nor the base name of any of its ancestors below [dirPath]
    (the paths reached by the first [k] names) starts with a dot. *)
Definition noHiddenBaseName (dirPath p : string) : Prop :=
  exists names,
    names <> [] /\ p = descend dirPath names
    /\ forall k, (0 < k <= List.length names)%nat ->
         Js.startsWith (path.basename (descend dirPath (firstn k names))) "." = false.

(** A run that ended by itself, not by the bound of the model. *)
Definition settled {A} (m : M A) : Prop := outcome m <> OutOfFuel.

(** The directory [p] can be walked within [depth] levels: it can be
    listed, each of its entries can be looked at, and each entry the walk
    enters can be walked within one level less. *)
Fixpoint walkable (disk : FileSystem) (depth : nat) (p : string) : Prop :=
  match depth with
  | O => False
  | S below =>
      exists files,
        readdirSync disk p = inr files
        /\ Forall (fun file =>
                     exists st,
                       statSync disk (path.join p file) = inr st
                       /\ (Js.startsWith file "." = false -> isDirectory st = true ->
                           walkable disk below (path.join p file)))
                  files
  end.

(** ** What a run shows *)

(** A call into Node's [fs]. *)
Definition isFsCall (ev : Event) : Prop :=
  match ev with
  | StatSync _ | ReaddirSync _ | ReadFileSync _ => True
  | _ => False
  end.

Definition noDocument {A} (m : M A) : Prop :=
  forall content language, ~ In (OpenTextDocument content language) (events m).

Definition noErrorMessage {A} (m : M A) : Prop :=
  forall msg, ~ In (ShowErrorMessage msg) (events m).

(** The document [packFiles] returns. *)
Definition packedDocument (disk : FileSystem) (host : Host) (now : Date) (files : list Uri)
    : string :=
  documentHead host now files ++ fileBlocks disk host (List.length files) 1 files.

(** The resolver cannot get past the entry [r]: [statSync] throws [e] on
    it, or it is a directory and listing it throws [e]. *)
Definition entryFails (disk : FileSystem) (r : Uri) (e : Error) : Prop :=
  statSync disk (fsPath r) = inl e
  \/ exists st, statSync disk (fsPath r) = inr st /\ isDirectory st = true
                /\ readdirSync disk (fsPath r) = inl e.

(** The path [p] does not exist, or exists and cannot be read: a
    directory that cannot be listed, a file whose content cannot be read. *)
Definition missingOrUnreadable (disk : FileSystem) (p : string) : Prop :=
  match statSync disk p with
  | inl _ => True
  | inr st =>
      if isDirectory st
      then exists e, readdirSync disk p = inl e
      else exists e, readFileSync disk p = inl e
  end.

(** The sentence that every missing or unreadable entry aborts the
    operation, for one selection. *)
Definition abortsWhenUnreadable (disk : FileSystem) (host : Host) (fuel : nat) (now : Date)
    (resources : list Uri) : Prop :=
  (exists r, In r resources /\ missingOrUnreadable disk (fsPath r)) ->
  (forall files, outcome (getFilesFromResources disk fuel resources) <> Ok files)
  /\ noDocument (packSelection disk host fuel now resources).

(** ** A sample project *)

Inductive Node :=
| FileNode (bytes : N) (modified : string) (content : Error + string)
| DirNode (listing : Error + list string).

Fixpoint nodeAt (tree : list (string * Node)) (p : string) : option Node :=
  match tree with
  | [] => None
  | (q, node) :: rest => if q =? p then Some node else nodeAt rest p
  end.

Definition noEntry (syscall p : string) : Error :=
  mkError "Error" ("ENOENT: no such file or directory, " ++ syscall ++ " '" ++ p ++ "'").

Definition accessDenied (syscall p : string) : Error :=
  mkError "Error" ("EACCES: permission denied, " ++ syscall ++ " '" ++ p ++ "'").

Definition notADirectory (p : string) : Error :=
  mkError "Error" ("ENOTDIR: not a directory, scandir '" ++ p ++ "'").

Definition isADirectory : Error :=
  mkError "Error" "EISDIR: illegal operation on a directory, read".

Definition epoch : Date := mkDate "1970-01-01T00:00:00.000Z".

(** The file system a table of nodes stands for. *)
Definition diskOf (tree : list (string * Node)) : FileSystem :=
  mkFileSystem
    (fun p => match nodeAt tree p with
              | Some (FileNode bytes modified _) => inr (mkStats false bytes (mkDate modified))
              | Some (DirNode _) => inr (mkStats true 4096 epoch)
              | None => inl (noEntry "stat" p)
              end)
    (fun p => match nodeAt tree p with
              | Some (DirNode listing) => listing
              | Some (FileNode _ _ _) => inl (notADirectory p)
              | None => inl (noEntry "scandir" p)
              end)
    (fun p => match nodeAt tree p with
              | Some (FileNode _ _ content) => content
              | Some (DirNode _) => inl isADirectory
              | None => inl (noEntry "open" p)
              end).

Definition sampleTree : list (string * Node) :=
  [ ("/proj", DirNode (inr ["a.py"; "sub"; ".hidden.rs"; "secret.txt"; "notes.xyz"; "empty"]));
    ("/proj/a.py", FileNode 9 "2025-03-08T10:00:00.000Z" (inr "print(1)
"));
    ("/proj/sub", DirNode (inr ["b.js"; ".env"; ".git"]));
    ("/proj/sub/b.js", FileNode 1536 "2025-03-08T11:00:00.000Z" (inr "let b;"));
    ("/proj/sub/.env", FileNode 7 "2025-03-08T12:00:00.000Z" (inr "KEY=1"));
    ("/proj/sub/.git", DirNode (inr ["config"]));
    ("/proj/sub/.git/config", FileNode 20 "2025-03-08T13:00:00.000Z" (inr "[core]"));
    ("/proj/.hidden.rs", FileNode 12 "2025-03-08T14:00:00.000Z" (inr "fn main() {}"));
    ("/proj/secret.txt", FileNode 5 "2025-03-08T15:00:00.000Z"
                           (inl (accessDenied "open" "/proj/secret.txt")));
    ("/proj/notes.xyz", FileNode 3 "2025-03-08T16:00:00.000Z" (inr "abc"));
    ("/proj/empty", DirNode (inr []));
    ("/proj/locked", DirNode (inl (accessDenied "scandir" "/proj/locked"))) ].

Definition sampleDisk : FileSystem := diskOf sampleTree.

(** No workspace folder is open: paths are displayed as they are. *)
Definition bareHost : Host :=
  mkHost (fun _ => None) (fun _ target => target) None None.

Definition sampleNow : Date := mkDate "2025-03-09T09:30:00.000Z".

(** ** Notions for the further properties *)

(** What the entry [name] of the listing of [dirPath] adds to the list of
    the walk: nothing when it is hidden, the files below it when it is a
    directory, itself otherwise. *)
Definition entryYields (disk : FileSystem) (fuel : nat) (dirPath name : string)
    (found : list Uri) : Prop :=
  exists st,
    statSync disk (path.join dirPath name) = inr st
    /\ (if Js.startsWith name "." then found = []
        else if isDirectory st
             then outcome (getAllFilesFromDir disk fuel (path.join dirPath name) []) = Ok found
             else found = [Uri_file (path.join dirPath name)]).

(** The paths given to [readFileSync] along a trace, in order. *)
Fixpoint readPaths (trace : list Event) : list string :=
  match trace with
  | [] => []
  | ReadFileSync p :: rest => p :: readPaths rest
  | _ :: rest => readPaths rest
  end.



(** A string without dot and without separator. *)
Definition plainChars (s : string) : Prop :=
  Forall (fun c => c <> "."%char /\ c <> "/"%char) (list_ascii_of_string s).

(** What the resolution may do: look at an entry, list a directory. *)
Definition isResolverCall (ev : Event) : Prop :=
  match ev with
  | StatSync _ | ReaddirSync _ => True
  | _ => False
  end.

(** What the formatter may do: read, look at a file, show an error. *)
Definition isFormatterEvent (ev : Event) : Prop :=
  match ev with
  | ReadFileSync _ | StatSync _ | ShowErrorMessage _ => True
  | _ => False
  end.


(** A directory with one source file and a hidden entry that cannot be
    looked at (a dangling link). *)
Definition danglingTree : list (string * Node) :=
  [ ("/repo", DirNode (inr ["main.go"; ".lock"]));
    ("/repo/main.go", FileNode 2048 "2025-03-08T17:00:00.000Z" (inr "package main")) ].

Definition danglingDisk : FileSystem := diskOf danglingTree.

(** An editor is open on a file, and the dialog would give two folders. *)
Definition editingHost : Host :=
  mkHost (fun _ => None) (fun _ target => target) (Some "/proj/a.py")
         (Some [mkUri "/proj/sub"; mkUri "/proj/empty"]).

(** * Properties *)

Example extname_samples :
  map path.extname
    ["index.html"; "index.coffee.md"; "index."; "index"; ".index"; ".index.md";
     ".."; "..."; "a/b.c/d"; "/x/y.rs/"; "a.b/.c"; ""]
  = [".html"; ".md"; "."; ""; ""; ".md"; ""; "."; ""; ".rs"; ""; ""].
Proof. reflexivity. Qed.

Example basename_samples :
  map path.basename ["/proj/sub/b.js"; "/proj/sub/"; "a.py"; "/"; ""; "/proj/.git/config"]
  = ["b.js"; "sub"; "a.py"; ""; ""; "config"].
Proof. reflexivity. Qed.

Example getLanguageId_samples :
  map getLanguageId ["/p/main.rs"; "MAIN.PY"; "lib.Rs"; "a.xyz"; "Makefile"; ".rs"; "x.tar.JSON"]
  = ["rust"; "python"; "rust"; ""; ""; ""; "json"].
Proof. reflexivity. Qed.

Example kilobytes_samples :
  map Js.kilobytesToFixed1 [0; 51; 52; 1024; 1536; 123456]%N
  = ["0.0"; "0.0"; "0.1"; "1.0"; "1.5"; "120.6"].
Proof. reflexivity. Qed.

(** ** The scenarios of the specification *)

Example resolve_scenario :
  outcome (getFilesFromResources sampleDisk 3 [mkUri "/proj/a.py"; mkUri "/proj/sub"])
  = Ok [mkUri "/proj/a.py"; mkUri "/proj/sub/b.js"].
Proof. reflexivity. Qed.

Example resolve_scenario_trace :
  events (getFilesFromResources sampleDisk 3 [mkUri "/proj/a.py"; mkUri "/proj/sub"])
  = [StatSync "/proj/a.py"; StatSync "/proj/sub"; ReaddirSync "/proj/sub";
     StatSync "/proj/sub/b.js"; StatSync "/proj/sub/.env"; StatSync "/proj/sub/.git"].
Proof. reflexivity. Qed.

Example empty_selection_scenario :
  activate sampleDisk bareHost 3 sampleNow []
  = ([OpenDialog; ShowWarningMessage "No files or folders selected to pack."], Ok tt).
Proof. reflexivity. Qed.

(** ** Strings *)

Lemma append_assoc (a b c : string) : (a ++ b) ++ c = a ++ b ++ c.
Proof. induction a as [|ch a IH]; simpl; [reflexivity | now rewrite IH]. Qed.

Lemma append_empty_r (a : string) : a ++ "" = a.
Proof. induction a as [|ch a IH]; simpl; [reflexivity | now rewrite IH]. Qed.

Lemma lowerChar_is_slash (c : ascii) : (Js.lowerChar c =? "/")%char = (c =? "/")%char.
Proof. destruct c as [[] [] [] [] [] [] [] []]; reflexivity. Qed.

Lemma lowerChar_is_dot (c : ascii) : (Js.lowerChar c =? ".")%char = (c =? ".")%char.
Proof. destruct c as [[] [] [] [] [] [] [] []]; reflexivity. Qed.

Lemma lowerChar_idempotent (c : ascii) : Js.lowerChar (Js.lowerChar c) = Js.lowerChar c.
Proof. destruct c as [[] [] [] [] [] [] [] []]; reflexivity. Qed.

Lemma toLowerCase_append (a b : string) :
  Js.toLowerCase (a ++ b) = Js.toLowerCase a ++ Js.toLowerCase b.
Proof. induction a as [|ch a IH]; simpl; [reflexivity | now rewrite IH]. Qed.

Lemma toLowerCase_idempotent (s : string) :
  Js.toLowerCase (Js.toLowerCase s) = Js.toLowerCase s.
Proof.
  induction s as [|ch s IH]; simpl; [reflexivity|].
  now rewrite lowerChar_idempotent, IH.
Qed.

Lemma toLowerCase_length (s : string) : String.length (Js.toLowerCase s) = String.length s.
Proof. induction s as [|ch s IH]; simpl; [reflexivity | now rewrite IH]. Qed.

Lemma toLowerCase_chars (s : string) :
  list_ascii_of_string (Js.toLowerCase s) = map Js.lowerChar (list_ascii_of_string s).
Proof. induction s as [|ch s IH]; simpl; [reflexivity | now rewrite IH]. Qed.

Lemma toLowerCase_substring (s : string) : forall n m,
  substring n m (Js.toLowerCase s) = Js.toLowerCase (substring n m s).
Proof.
  induction s as [|ch s IH]; intros n m.
  - destruct n, m; reflexivity.
  - destruct n as [|n]; simpl.
    + destruct m as [|m]; simpl; [reflexivity|]. now rewrite IH.
    + apply IH.
Qed.

(** ** [path.extname] only looks at dots and separators *)

Lemma extStep_lowerChar i c st : path.extStep i (Js.lowerChar c) st = path.extStep i c st.
Proof. unfold path.extStep. now rewrite lowerChar_is_slash, lowerChar_is_dot. Qed.

Lemma extLoop_lowerChar chars : forall i st,
  path.extLoop (map Js.lowerChar chars) i st = path.extLoop chars i st.
Proof.
  induction chars as [|c chars IH]; intros i st; simpl; [reflexivity|].
  rewrite extStep_lowerChar.
  destruct (path.extStep i c st) as [st' stop].
  destruct stop; [reflexivity | apply IH].
Qed.

Lemma extScan_toLowerCase p : path.extScan (Js.toLowerCase p) = path.extScan p.
Proof.
  unfold path.extScan.
  now rewrite toLowerCase_chars, toLowerCase_length, <- map_rev, extLoop_lowerChar.
Qed.

Lemma extname_toLowerCase p :
  path.extname (Js.toLowerCase p) = Js.toLowerCase (path.extname p).
Proof.
  unfold path.extname. rewrite extScan_toLowerCase.
  destruct (path.extNone (path.extScan p)); [reflexivity|].
  apply toLowerCase_substring.
Qed.

Lemma getLanguageId_toLowerCase p : getLanguageId (Js.toLowerCase p) = getLanguageId p.
Proof.
  unfold getLanguageId.
  now rewrite extname_toLowerCase, toLowerCase_idempotent.
Qed.

(** ** The language of a file (C10) *)

(** C10. The lookup of the language ignores the case of the extension: a
    path and the same path with its extension (any tail of it, in fact)
    in lower case get the same identifier, so 'MAIN.PY' is python and
    'lib.Rs' is rust; a path without extension, or whose lower-cased
    extension is not a key of the table, gets the empty identifier. *)
Theorem getLanguageId_case_insensitive :
  (forall stem ext,
      getLanguageId (stem ++ ext) = getLanguageId (stem ++ Js.toLowerCase ext))
  /\ getLanguageId "MAIN.PY" = "python"
  /\ getLanguageId "MAIN.PY" = getLanguageId "MAIN.py"
  /\ getLanguageId "lib.Rs" = "rust"
  /\ getLanguageId "lib.Rs" = getLanguageId "lib.rs"
  /\ (forall p, path.extname p = "" -> getLanguageId p = "")
  /\ (forall p, property langMap (Js.toLowerCase (path.extname p)) = None ->
                getLanguageId p = "").
Proof.
  repeat split; try reflexivity.
  - intros stem ext.
    rewrite <- (getLanguageId_toLowerCase (stem ++ ext)).
    rewrite <- (getLanguageId_toLowerCase (stem ++ Js.toLowerCase ext)).
    now rewrite !toLowerCase_append, toLowerCase_idempotent.
  - intros p H. unfold getLanguageId. now rewrite H.
  - intros p H. unfold getLanguageId. now rewrite H.
Qed.

Lemma getLanguageId_case_insensitive_witness :
  getLanguageId "Makefile" = "" /\ getLanguageId "archive.XYZ" = "".
Proof.
  destruct getLanguageId_case_insensitive as (_ & _ & _ & _ & _ & Hnone & Hunmapped).
  split.
  - apply Hnone. reflexivity.
  - apply Hunmapped. reflexivity.
Defined.

(** ** Laws of the computations *)

Lemma bind_ret_l {A B} (a : A) (k : A -> M B) : bind (ret a) k = k a.
Proof. unfold bind, ret. now destruct (k a). Qed.

Lemma bind_ret_r {A} (m : M A) : bind m ret = m.
Proof.
  destruct m as [t [a|e|]]; unfold bind, ret, events, outcome; simpl; try reflexivity.
  now rewrite app_nil_r.
Qed.

Lemma bind_assoc {A B C} (m : M A) (k : A -> M B) (h : B -> M C) :
  bind (bind m k) h = bind m (fun a => bind (k a) h).
Proof.
  destruct m as [t [a|e|]]; unfold bind, ret, events, outcome; simpl; try reflexivity.
  destruct (k a) as [t1 [b|e|]]; unfold bind, ret, events, outcome; simpl; try reflexivity.
  destruct (h b) as [t2 r]. now rewrite app_assoc.
Qed.

Lemma bind_ext {A B} (m : M A) (k k' : A -> M B) :
  (forall a, k a = k' a) -> bind m k = bind m k'.
Proof. intros H. destruct m as [t [a|e|]]; unfold bind, ret, events, outcome; simpl; try reflexivity. now rewrite H. Qed.

Lemma bind_Ok {A B} (m : M A) (k : A -> M B) t a :
  m = (t, Ok a) -> bind m k = ((t ++ events (k a))%list, outcome (k a)).
Proof. intros ->. unfold bind, ret, events, outcome; simpl. now destruct (k a). Qed.

Lemma events_bind_Ok {A B} (m : M A) (k : A -> M B) a :
  outcome m = Ok a -> events (bind m k) = (events m ++ events (k a))%list.
Proof. destruct m as [t r]; unfold bind, ret, events, outcome; simpl; intros ->. now destruct (k a). Qed.

Lemma outcome_bind_Ok {A B} (m : M A) (k : A -> M B) a :
  outcome m = Ok a -> outcome (bind m k) = outcome (k a).
Proof. destruct m as [t r]; unfold bind, ret, events, outcome; simpl; intros ->. now destruct (k a). Qed.

(** A computation bound after [m] ends well only if [m] did. *)
Lemma outcome_bind_inv {A B} (m : M A) (k : A -> M B) b :
  outcome (bind m k) = Ok b ->
  exists a, outcome m = Ok a /\ outcome (k a) = Ok b.
Proof.
  destruct m as [t [a|e|]]; unfold bind, ret, events, outcome; simpl; try discriminate.
  destruct (k a) as [t' r] eqn:E; unfold bind, ret, events, outcome; simpl. intros ->.
  exists a. now rewrite E.
Qed.

(** The events of [m] come first in the events of anything bound after it. *)
Lemma events_bind_prefix {A B} (m : M A) (k : A -> M B) :
  exists rest, events (bind m k) = (events m ++ rest)%list.
Proof.
  destruct m as [t [a|e|]]; unfold bind, ret, events, outcome; simpl.
  - destruct (k a) as [t' r]. now exists t'.
  - exists []. now rewrite app_nil_r.
  - exists []. now rewrite app_nil_r.
Qed.

Lemma forEachFrom_app {A St} (callback : A -> nat -> St -> M St) xs : forall start ys s,
  forEachFrom start callback (xs ++ ys) s
  = bind (forEachFrom start callback xs s)
         (forEachFrom (start + List.length xs) callback ys).
Proof.
  induction xs as [|x xs IH]; intros start ys s; simpl.
  - now rewrite bind_ret_l, Nat.add_0_r.
  - rewrite bind_assoc. apply bind_ext. intros s'.
    now rewrite IH, Nat.add_succ_r.
Qed.

(** ** The resolver visits entries in order (C8, C4) *)

Section Resolver.

Variable disk : FileSystem.

Lemma resourcesLoop_app fuel rs1 : forall rs2 allFiles,
  resourcesLoop disk fuel (rs1 ++ rs2) allFiles
  = bind (resourcesLoop disk fuel rs1 allFiles) (resourcesLoop disk fuel rs2).
Proof.
  induction rs1 as [|r rs1 IH]; intros rs2 allFiles; simpl.
  - now rewrite bind_ret_l.
  - rewrite bind_assoc. apply bind_ext. intros stat.
    rewrite bind_assoc. apply bind_ext. intros allFiles'.
    apply IH.
Qed.

Lemma resourcesLoop_accumulates fuel rs : forall allFiles,
  resourcesLoop disk fuel rs allFiles
  = bind (resourcesLoop disk fuel rs []) (fun found => ret (allFiles ++ found)%list).
Proof.
  induction rs as [|r rs IH]; intros allFiles; simpl.
  - now rewrite bind_ret_l, app_nil_r.
  - rewrite bind_assoc. apply bind_ext. intros stat.
    destruct (isDirectory stat).
    + rewrite !bind_assoc. apply bind_ext. intros dirFiles.
      rewrite !bind_ret_l.
      rewrite (IH (allFiles ++ dirFiles)%list), (IH dirFiles).
      rewrite bind_assoc. apply bind_ext. intros found.
      now rewrite bind_ret_l, app_assoc.
    + rewrite !bind_ret_l.
      rewrite (IH (allFiles ++ [r])%list), (IH [r]).
      rewrite bind_assoc. apply bind_ext. intros found.
      now rewrite bind_ret_l, app_assoc.
Qed.

(** The resolution of a list is the resolution of its front, then of its
    back, the two results appended; events and failures included. *)
Lemma getFilesFromResources_app fuel rs1 rs2 :
  getFilesFromResources disk fuel (rs1 ++ rs2)
  = bind (getFilesFromResources disk fuel rs1) (fun front =>
    bind (getFilesFromResources disk fuel rs2) (fun back =>
    ret (front ++ back)%list)).
Proof.
  unfold getFilesFromResources.
  rewrite resourcesLoop_app. apply bind_ext. intros front.
  apply resourcesLoop_accumulates.
Qed.

Lemma getFilesFromResources_cons fuel r rs :
  getFilesFromResources disk fuel (r :: rs)
  = bind (getFilesFromResources disk fuel [r]) (fun front =>
    bind (getFilesFromResources disk fuel rs) (fun back =>
    ret (front ++ back)%list)).
Proof. apply (getFilesFromResources_app fuel [r] rs). Qed.

(** A selected regular file resolves to itself. *)
Lemma getFilesFromResources_file fuel r st :
  statSync disk (fsPath r) = inr st -> isDirectory st = false ->
  getFilesFromResources disk fuel [r] = ([StatSync (fsPath r)], Ok [r]).
Proof.
  intros Hstat Hfile.
  unfold getFilesFromResources, resourcesLoop, fs_statSync, call.
  rewrite Hstat. unfold bind. now rewrite Hfile.
Qed.

(** C8. The resolved list is the concatenation, in entry order, of what
    each entry resolves to on its own; nothing is removed, so a file
    reached by two entries appears once for each (a list resolved twice
    in a row yields its files twice). *)
Theorem getFilesFromResources_concat fuel resources perEntry :
  Forall2 (fun r files => outcome (getFilesFromResources disk fuel [r]) = Ok files)
          resources perEntry ->
  outcome (getFilesFromResources disk fuel resources) = Ok (concat perEntry)
  /\ outcome (getFilesFromResources disk fuel (resources ++ resources))
     = Ok (concat perEntry ++ concat perEntry)%list.
Proof.
  intros H.
  assert (Hone : outcome (getFilesFromResources disk fuel resources) = Ok (concat perEntry)).
  { induction H as [|r files rs rest Hr _ IH]; [reflexivity|].
    rewrite getFilesFromResources_cons.
    rewrite (outcome_bind_Ok _ _ _ Hr), (outcome_bind_Ok _ _ _ IH). reflexivity. }
  split; [exact Hone|].
  rewrite getFilesFromResources_app.
  rewrite (outcome_bind_Ok _ _ _ Hone), (outcome_bind_Ok _ _ _ Hone). reflexivity.
Qed.

(** C4. A selected entry that is a regular file is put on the resolved
    list as it is, whatever its name: alone it resolves to itself, and
    in any selection that resolves it is among the results (the name is
    not looked at, so a name starting with a dot changes nothing). *)
Theorem selected_file_is_kept fuel r st :
  statSync disk (fsPath r) = inr st -> isDirectory st = false ->
  outcome (getFilesFromResources disk fuel [r]) = Ok [r]
  /\ forall before after files,
       outcome (getFilesFromResources disk fuel (before ++ r :: after)) = Ok files ->
       exists front back, files = (front ++ r :: back)%list.
Proof.
  intros Hstat Hfile.
  pose proof (getFilesFromResources_file fuel r st Hstat Hfile) as Hr.
  split; [now rewrite Hr|].
  intros before after files H.
  rewrite getFilesFromResources_app in H.
  apply outcome_bind_inv in H as (front & _ & H).
  apply outcome_bind_inv in H as (rest & Hrest & H).
  rewrite getFilesFromResources_cons, Hr in Hrest. simpl in Hrest.
  destruct (getFilesFromResources disk fuel after) as [t [back|e|]];
    simpl in Hrest; try discriminate.
  injection Hrest as <-. simpl in H. injection H as <-.
  now exists front, back.
Qed.

End Resolver.

(** ** The names along a path are its base names *)

Lemma length_append (a b : string) :
  String.length (a ++ b) = (String.length a + String.length b)%nat.
Proof. induction a as [|c a IH]; simpl; [reflexivity | now rewrite IH]. Qed.

Lemma chars_append (a b : string) :
  list_ascii_of_string (a ++ b) = (list_ascii_of_string a ++ list_ascii_of_string b)%list.
Proof. induction a as [|c a IH]; simpl; [reflexivity | now rewrite IH]. Qed.

Lemma chars_length (a : string) : List.length (list_ascii_of_string a) = String.length a.
Proof. induction a as [|c a IH]; simpl; [reflexivity | now rewrite IH]. Qed.

Lemma string_of_chars_append (a b : list ascii) :
  string_of_list_ascii (a ++ b) = string_of_list_ascii a ++ string_of_list_ascii b.
Proof. induction a as [|c a IH]; simpl; [reflexivity | now rewrite IH]. Qed.

Lemma substring_suffix (a b : string) :
  substring (String.length a) (String.length b) (a ++ b) = b.
Proof.
  induction a as [|c a IH]; simpl; [|exact IH].
  induction b as [|c b IH]; simpl; [reflexivity | now rewrite IH].
Qed.

(** Once the end of the name is known, the scan of [path.basename] changes
    nothing until it meets a separator. *)
Lemma baseLoop_inside chars : forall rest i st,
  Forall (fun c => c <> "/"%char) chars ->
  path.baseEnd st <> (-1)%Z ->
  path.baseLoop (chars ++ rest) i st
  = path.baseLoop rest (i - Z.of_nat (List.length chars)) st.
Proof.
  induction chars as [|c chars IH]; intros rest i st Hchars Hend.
  - cbn [app List.length path.baseLoop]. f_equal. lia.
  - inversion Hchars as [|? ? Hc Hrest]; subst.
    cbn [app path.baseLoop]. unfold path.baseStep.
    apply Ascii.eqb_neq in Hc. rewrite Hc.
    pose proof Hend as Hend'. apply Z.eqb_neq in Hend'. rewrite Hend'.
    rewrite IH by assumption.
    f_equal. cbn [List.length]. lia.
Qed.

Lemma baseLoop_name chars rest i :
  chars <> [] ->
  Forall (fun c => c <> "/"%char) chars ->
  (0 <= i)%Z ->
  path.baseLoop (chars ++ rest) i (path.mkBaseScan 0 (-1) true)
  = path.baseLoop rest (i - Z.of_nat (List.length chars)) (path.mkBaseScan 0 (i + 1) false).
Proof.
  intros Hne Hchars Hi. destruct chars as [|c chars]; [contradiction|].
  inversion Hchars as [|? ? Hc Hrest]; subst.
  cbn [app path.baseLoop]. unfold path.baseStep.
  apply Ascii.eqb_neq in Hc. rewrite Hc. cbn [path.baseEnd path.baseStart].
  change (-1 =? -1)%Z with true. cbv iota.
  rewrite baseLoop_inside; [|exact Hrest | cbn [path.baseEnd]; lia].
  f_equal. cbn [List.length]. lia.
Qed.

Lemma entryName_backwards name :
  entryName name ->
  rev (list_ascii_of_string name) <> []
  /\ Forall (fun c => c <> "/"%char) (rev (list_ascii_of_string name)).
Proof.
  intros [Hne Hchars]. split.
  - destruct name as [|c name]; [contradiction|].
    simpl. intros H. now apply app_eq_nil in H as [_ H].
  - now apply Forall_rev.
Qed.

(** The base name of a name put after a separator, or after nothing, is
    that name. *)
Lemma basename_after_separator prefix name :
  entryName name ->
  prefix = "" \/ (exists q, prefix = q ++ "/") ->
  path.basename (prefix ++ name) = name.
Proof.
  intros Hname Hprefix.
  destruct (entryName_backwards name Hname) as [Hne Hchars].
  assert (Hlen : (0 < String.length name)%nat).
  { destruct Hname as [Hn _]. destruct name; [contradiction | simpl; lia]. }
  unfold path.basename.
  rewrite chars_append, rev_app_distr, length_append.
  rewrite baseLoop_name by (try assumption; lia).
  rewrite length_rev, chars_length.
  destruct Hprefix as [-> | (q & ->)].
  - cbn [list_ascii_of_string rev path.baseLoop path.baseEnd path.baseStart String.length
         Nat.add append].
    replace (Z.of_nat (String.length name) - 1 + 1 =? -1)%Z with false
      by (symmetry; apply Z.eqb_neq; lia).
    replace (Z.to_nat 0) with (String.length "") by reflexivity.
    replace (Z.to_nat (Z.of_nat (String.length name) - 1 + 1 - 0)) with (String.length name)
      by lia.
    apply (substring_suffix "" name).
  - rewrite chars_append, rev_app_distr. cbn [list_ascii_of_string rev app path.baseLoop].
    unfold path.baseStep. cbn [Ascii.eqb Bool.eqb andb path.baseMatchedSlash negb
                               path.baseEnd path.baseStart].
    rewrite length_append. cbn [String.length].
    replace (Z.of_nat (String.length q + 1 + String.length name) - 1 + 1 =? -1)%Z
      with false by (symmetry; apply Z.eqb_neq; lia).
    replace (Z.to_nat (Z.of_nat (String.length q + 1 + String.length name) - 1
                       - Z.of_nat (String.length name) + 1))
      with (String.length (q ++ "/")) by (rewrite length_append; cbn [String.length]; lia).
    replace (Z.to_nat _) with (String.length name) by lia.
    apply substring_suffix.
Qed.

Lemma endsWithSlash_inv dir :
  path.endsWithSlash dir = true -> exists q, dir = q ++ "/".
Proof.
  unfold path.endsWithSlash.
  destruct (rev (list_ascii_of_string dir)) as [|c backwards] eqn:E; [discriminate|].
  intros Hc. apply Ascii.eqb_eq in Hc. subst c.
  exists (string_of_list_ascii (rev backwards)).
  rewrite <- (string_of_list_ascii_of_string dir).
  rewrite <- (rev_involutive (list_ascii_of_string dir)), E.
  cbn [rev]. now rewrite string_of_chars_append.
Qed.

(** Joining an entry name to a directory gives a path with that base
    name. *)
Lemma basename_join dir name :
  entryName name -> path.basename (path.join dir name) = name.
Proof.
  intros Hname. unfold path.join.
  destruct (String.eqb_spec dir "") as [->|Hdir].
  - apply (basename_after_separator "" name Hname). now left.
  - destruct (path.endsWithSlash dir) eqn:Hslash.
    + apply basename_after_separator; [exact Hname|].
      right. now apply endsWithSlash_inv.
    + rewrite <- append_assoc.
      apply basename_after_separator; [exact Hname|].
      right. now exists dir.
Qed.

(** The base name of a path reached through entry names is the last of
    them; the paths reached through the names before it are its
    ancestors. *)
Lemma basename_descend names : forall dirPath,
  names <> [] -> Forall entryName names ->
  path.basename (descend dirPath names) = last names "".
Proof.
  induction names as [|name names IH]; intros dirPath Hne Hnames; [contradiction|].
  inversion Hnames as [|? ? Hname Hrest]; subst.
  destruct names as [|next names].
  - apply basename_join. exact Hname.
  - change (descend dirPath (name :: next :: names))
      with (descend (path.join dirPath name) (next :: names)).
    rewrite IH; [reflexivity | discriminate | exact Hrest].
Qed.

(** ** The fuel is only a bound *)

Lemma bind_ext_Ok {A B} (m : M A) (k k' : A -> M B) :
  (forall a, outcome m = Ok a -> k a = k' a) -> bind m k = bind m k'.
Proof.
  intros H. destruct m as [t [a|e|]]; unfold bind; try reflexivity.
  now rewrite (H a eq_refl).
Qed.

Lemma settled_bind_l {A B} (m : M A) (k : A -> M B) : settled (bind m k) -> settled m.
Proof.
  destruct m as [t [a|e|]]; unfold settled, bind, outcome; simpl; try discriminate.
  intros H _. now apply H.
Qed.

Lemma settled_bind_r {A B} (m : M A) (k : A -> M B) a :
  settled (bind m k) -> outcome m = Ok a -> settled (k a).
Proof.
  intros H Hm. unfold settled in *. now rewrite (outcome_bind_Ok _ _ _ Hm) in H.
Qed.

Section Fuel.

Variable disk : FileSystem.

Lemma getAllFilesFromDir_S fuel dirPath fileList :
  getAllFilesFromDir disk (S fuel) dirPath fileList
  = bind (fs_readdirSync disk dirPath) (fun files =>
      forEach (fun file (_ : nat) fileList =>
        bind (fs_statSync disk (path.join dirPath file)) (fun stat =>
          if Js.startsWith file "." then ret fileList
          else if isDirectory stat
               then getAllFilesFromDir disk fuel (path.join dirPath file) fileList
               else ret (fileList ++ [Uri_file (path.join dirPath file)])%list))
        files fileList).
Proof. reflexivity. Qed.

(** One more unit of fuel does not change a walk that ended by itself. *)
Lemma getAllFilesFromDir_more_fuel fuel : forall dirPath fileList,
  settled (getAllFilesFromDir disk fuel dirPath fileList) ->
  getAllFilesFromDir disk (S fuel) dirPath fileList
  = getAllFilesFromDir disk fuel dirPath fileList.
Proof.
  induction fuel as [|fuel IH]; intros dirPath fileList Hsettled.
  - now destruct Hsettled.
  - rewrite (getAllFilesFromDir_S (S fuel) dirPath fileList).
    rewrite (getAllFilesFromDir_S fuel dirPath fileList) in Hsettled |- *.
    apply bind_ext_Ok. intros files Hfiles.
    apply (settled_bind_r _ _ _ Hsettled) in Hfiles. clear Hsettled.
    unfold forEach in *. revert fileList Hfiles. generalize 0%nat as start.
    induction files as [|file files IHfiles]; intros start fileList Hrest; [reflexivity|].
    cbn [forEachFrom] in Hrest |- *.
    assert (Hentry :
      bind (fs_statSync disk (path.join dirPath file)) (fun stat =>
        if Js.startsWith file "." then ret fileList
        else if isDirectory stat
             then getAllFilesFromDir disk (S fuel) (path.join dirPath file) fileList
             else ret (fileList ++ [Uri_file (path.join dirPath file)])%list)
      = bind (fs_statSync disk (path.join dirPath file)) (fun stat =>
        if Js.startsWith file "." then ret fileList
        else if isDirectory stat
             then getAllFilesFromDir disk fuel (path.join dirPath file) fileList
             else ret (fileList ++ [Uri_file (path.join dirPath file)])%list)).
    { apply bind_ext_Ok. intros stat Hstat.
      pose proof (settled_bind_r _ _ _ (settled_bind_l _ _ Hrest) Hstat) as Hbody.
      cbv beta in Hbody.
      destruct (Js.startsWith file "."); [reflexivity|].
      destruct (isDirectory stat); [|reflexivity].
      now apply IH. }
    rewrite Hentry. apply bind_ext_Ok. intros fileList' Hok.
    apply IHfiles. exact (settled_bind_r _ _ _ Hrest Hok).
Qed.

Lemma getAllFilesFromDir_enough_fuel fuel extra dirPath fileList :
  settled (getAllFilesFromDir disk fuel dirPath fileList) ->
  getAllFilesFromDir disk (extra + fuel) dirPath fileList
  = getAllFilesFromDir disk fuel dirPath fileList.
Proof.
  intros Hsettled. induction extra as [|extra IH]; [reflexivity|].
  cbn [Nat.add]. rewrite getAllFilesFromDir_more_fuel; [exact IH|].
  now rewrite IH.
Qed.

(** A directory that can be walked within [depth] levels is walked with
    fuel [depth]: the walk returns a list. *)
Lemma getAllFilesFromDir_returns depth : forall dirPath fileList,
  walkable disk depth dirPath ->
  exists out, outcome (getAllFilesFromDir disk depth dirPath fileList) = Ok out.
Proof.
  induction depth as [|depth IH]; intros dirPath fileList Hwalk; [destruct Hwalk|].
  destruct Hwalk as (files & Hlist & Hentries).
  rewrite getAllFilesFromDir_S. unfold fs_readdirSync. rewrite Hlist. unfold call.
  rewrite bind_Ok with (t := [ReaddirSync dirPath]) (a := files) by reflexivity.
  unfold outcome at 1, snd. unfold forEach. clear Hlist.
  revert fileList. generalize 0%nat as start.
  induction Hentries as [|file files (st & Hstat & Hsub) _ IHfiles]; intros start fileList.
  - now exists fileList.
  - cbn [forEachFrom]. unfold fs_statSync. rewrite Hstat. unfold call.
    rewrite bind_Ok with (t := [StatSync (path.join dirPath file)]) (a := st) by reflexivity.
    assert (Hentry : exists fileList',
              outcome (if Js.startsWith file "." then ret fileList
                       else if isDirectory st
                            then getAllFilesFromDir disk depth (path.join dirPath file) fileList
                            else ret (fileList ++ [Uri_file (path.join dirPath file)])%list)
              = Ok fileList').
    { destruct (Js.startsWith file ".") eqn:Hdot; [now exists fileList|].
      destruct (isDirectory st) eqn:Hdir; [|now eexists].
      apply IH. now apply Hsub. }
    destruct Hentry as (fileList' & Hentry).
    destruct (IHfiles (S start) fileList') as (out & Hout).
    exists out. rewrite <- Hout. apply outcome_bind_Ok. exact Hentry.
Qed.

End Fuel.

(** ** The directory walk never enters a hidden entry (C1) *)

Lemma Forall_events_bind {A B} (P : Event -> Prop) (m : M A) (k : A -> M B) :
  Forall P (events m) ->
  (forall a, outcome m = Ok a -> Forall P (events (k a))) ->
  Forall P (events (bind m k)).
Proof.
  intros Hm Hk. destruct m as [t [a|e|]]; try exact Hm.
  rewrite (events_bind_Ok (t, Ok a) k a eq_refl).
  apply Forall_app. split; [exact Hm | now apply Hk].
Qed.

Lemma descend_cons dirPath name names :
  descend dirPath (name :: names) = descend (path.join dirPath name) names.
Proof. reflexivity. Qed.

Section Walk.

Variable disk : FileSystem.

Lemma visibleFrom_refl dirPath : visibleFrom disk dirPath dirPath.
Proof. exists []. split; [constructor | reflexivity]. Qed.

Lemma visibleFrom_step dirPath name p :
  listed disk name -> Js.startsWith name "." = false ->
  visibleFrom disk (path.join dirPath name) p -> visibleFrom disk dirPath p.
Proof.
  intros Hlisted Hname (names & Hnames & ->).
  exists (name :: names). split; [now constructor | reflexivity].
Qed.

Lemma visibleBelow_child dirPath name :
  listed disk name -> Js.startsWith name "." = false ->
  visibleBelow disk dirPath (path.join dirPath name).
Proof.
  intros Hlisted Hname. exists [name].
  repeat split; [discriminate | now repeat constructor].
Qed.

Lemma visibleBelow_step dirPath name p :
  listed disk name -> Js.startsWith name "." = false ->
  visibleBelow disk (path.join dirPath name) p -> visibleBelow disk dirPath p.
Proof.
  intros Hlisted Hname (names & _ & Hnames & ->).
  exists (name :: names). repeat split; [discriminate | now constructor].
Qed.

Lemma staysVisible_step dirPath name ev :
  listed disk name -> Js.startsWith name "." = false ->
  staysVisible disk (path.join dirPath name) ev -> staysVisible disk dirPath ev.
Proof.
  intros Hlisted Hname. destruct ev; simpl; try tauto.
  - intros (dir & entry & Hdir & ->).
    exists dir, entry. split; [now apply visibleFrom_step with name | reflexivity].
  - now apply visibleFrom_step.
Qed.

Lemma walkInvariant_after dirPath fileList ev (m : M (list Uri)) :
  staysVisible disk dirPath ev ->
  walkInvariant disk dirPath fileList m ->
  walkInvariant disk dirPath fileList (([ev] ++ events m)%list, outcome m).
Proof. intros Hev [Hm Hout]. split; [now constructor | exact Hout]. Qed.

Lemma walkInvariant_ret dirPath fileList : walkInvariant disk dirPath fileList (ret fileList).
Proof.
  split; [constructor|].
  intros out [= <-]. exists []. now rewrite app_nil_r.
Qed.

Lemma walkInvariant_push dirPath fileList name :
  listed disk name -> Js.startsWith name "." = false ->
  walkInvariant disk dirPath fileList
    (ret (fileList ++ [Uri_file (path.join dirPath name)])%list).
Proof.
  intros Hlisted Hname. split; [constructor|].
  intros out [= <-]. exists [Uri_file (path.join dirPath name)].
  split; [reflexivity|]. constructor; [|constructor].
  now apply visibleBelow_child.
Qed.

Lemma walkInvariant_step dirPath fileList name (m : M (list Uri)) :
  listed disk name -> Js.startsWith name "." = false ->
  walkInvariant disk (path.join dirPath name) fileList m ->
  walkInvariant disk dirPath fileList m.
Proof.
  intros Hlisted Hname [Hev Hout]. split.
  - revert Hev. apply Forall_impl. intros ev. now apply staysVisible_step.
  - intros out Hok. destruct (Hout out Hok) as (found & -> & Hfound).
    exists found. split; [reflexivity|].
    revert Hfound. apply Forall_impl. intros u. now apply visibleBelow_step.
Qed.

Lemma walk_entries fuel dirPath
    (IH : forall sub fileList,
            walkInvariant disk sub fileList (getAllFilesFromDir disk fuel sub fileList)) :
  forall files start fileList,
    Forall (listed disk) files ->
    walkInvariant disk dirPath fileList
      (forEachFrom start (fun file (_ : nat) fileList =>
         bind (fs_statSync disk (path.join dirPath file)) (fun stat =>
         if Js.startsWith file "." then ret fileList
         else if isDirectory stat
              then getAllFilesFromDir disk fuel (path.join dirPath file) fileList
              else ret (fileList ++ [Uri_file (path.join dirPath file)])%list))
         files fileList).
Proof.
  induction files as [|file files IHfiles]; intros start fileList Hlisted.
  - apply walkInvariant_ret.
  - inversion Hlisted as [|? ? Hfile Hfiles]; subst.
    cbn [forEachFrom].
    set (entry := bind (fs_statSync disk (path.join dirPath file)) _).
    assert (Hentry : walkInvariant disk dirPath fileList entry).
    { subst entry. unfold fs_statSync.
      assert (Hstat : staysVisible disk dirPath (StatSync (path.join dirPath file))).
      { exists dirPath, file. split; [apply visibleFrom_refl | reflexivity]. }
      destruct (statSync disk (path.join dirPath file)) as [e|stat]; unfold call.
      { split; [now repeat constructor | discriminate]. }
      rewrite bind_Ok with (t := [StatSync (path.join dirPath file)]) (a := stat)
        by reflexivity.
      apply walkInvariant_after; [exact Hstat|].
      destruct (Js.startsWith file ".") eqn:Hdot; [apply walkInvariant_ret|].
      destruct (isDirectory stat).
      - apply walkInvariant_step with file; [exact Hfile | exact Hdot | apply IH].
      - now apply walkInvariant_push. }
    destruct Hentry as [Hev Hout]. split.
    + apply Forall_events_bind; [exact Hev|].
      intros s' _. now apply IHfiles.
    + intros out Hok.
      apply outcome_bind_inv in Hok as (s' & Hs' & Hok).
      destruct (Hout s' Hs') as (found1 & -> & Hfound1).
      destruct (IHfiles (S start) (fileList ++ found1)%list Hfiles) as [_ Hrest].
      destruct (Hrest out Hok) as (found2 & -> & Hfound2).
      exists (found1 ++ found2)%list. split; [now rewrite app_assoc|].
      apply Forall_app. now split.
Qed.

Lemma walk_invariant fuel : forall dirPath fileList,
  walkInvariant disk dirPath fileList (getAllFilesFromDir disk fuel dirPath fileList).
Proof.
  induction fuel as [|fuel IH]; intros dirPath fileList.
  - split; [constructor | discriminate].
  - cbn [getAllFilesFromDir]. unfold fs_readdirSync.
    assert (Hlist : staysVisible disk dirPath (ReaddirSync dirPath))
      by apply visibleFrom_refl.
    destruct (readdirSync disk dirPath) as [e|files] eqn:Hfiles; unfold call.
    { split; [now repeat constructor | discriminate]. }
    rewrite bind_Ok with (t := [ReaddirSync dirPath]) (a := files) by reflexivity.
    apply walkInvariant_after; [exact Hlist|].
    apply (walk_entries fuel dirPath IH files 0 fileList).
    apply Forall_forall. intros name Hin. now exists dirPath, files.
Qed.

Lemma last_In (names : list string) :
  names <> [] -> In (last names "") names.
Proof.
  induction names as [|name names IH]; [contradiction|]. intros _.
  destruct names as [|next names]; [now left|].
  right. apply IH. discriminate.
Qed.

Lemma In_firstn (k : nat) : forall (names : list string) name,
  In name (firstn k names) -> In name names.
Proof.
  induction k as [|k IH]; intros [|n names] name; simpl; try tauto.
  intros [H|H]; [now left | right; now apply IH].
Qed.

(** On a file system whose listings hold entry names, the names along a
    visible path are its base name and those of its ancestors. *)
Lemma visibleBelow_basenames dirPath p :
  wellNamed disk -> visibleBelow disk dirPath p -> noHiddenBaseName dirPath p.
Proof.
  intros Hwell (names & Hne & Hnames & ->).
  exists names. repeat split; [exact Hne|].
  intros k [Hk _].
  assert (Hfront : firstn k names <> []).
  { destruct k; [lia|]. destruct names; [contradiction | discriminate]. }
  unfold noneHidden in Hnames. rewrite Forall_forall in Hnames.
  rewrite basename_descend.
  - apply Hnames. apply (In_firstn k). now apply last_In.
  - exact Hfront.
  - apply Forall_forall. intros name Hin.
    destruct (Hnames name (In_firstn k _ _ Hin)) as [(dir & files & Hlist & Hname) _].
    pose proof (Hwell dir files Hlist) as Hall. rewrite Forall_forall in Hall.
    now apply Hall.
Qed.

(** C1. Walking a directory entry point never yields a hidden path: every
    file in the output is the entry point joined with one or more listed
    names, its own and those of the directories above it, none of which
    starts with a dot; so, listings holding entry names, neither its base
    name nor the base name of an ancestor below the entry point starts
    with a dot.  Hidden directories are not entered: only the entry point
    and directories reached through such names are listed, and only their
    entries are looked at; this holds of every run, also of one that
    throws.  The same is true of the resolution of a selected directory. *)
Theorem getAllFilesFromDir_prunes_hidden fuel dirPath :
  Forall (staysVisible disk dirPath) (events (getAllFilesFromDir disk fuel dirPath []))
  /\ (forall files,
        outcome (getAllFilesFromDir disk fuel dirPath []) = Ok files ->
        Forall (fun u => visibleBelow disk dirPath (fsPath u)) files
        /\ (wellNamed disk -> Forall (fun u => noHiddenBaseName dirPath (fsPath u)) files))
  /\ (forall resource st files,
        fsPath resource = dirPath ->
        statSync disk dirPath = inr st -> isDirectory st = true ->
        outcome (getFilesFromResources disk fuel [resource]) = Ok files ->
        Forall (fun u => visibleBelow disk dirPath (fsPath u)) files
        /\ (wellNamed disk -> Forall (fun u => noHiddenBaseName dirPath (fsPath u)) files)).
Proof.
  destruct (walk_invariant fuel dirPath []) as [Hev Hout].
  assert (Hfiles : forall files,
            outcome (getAllFilesFromDir disk fuel dirPath []) = Ok files ->
            Forall (fun u => visibleBelow disk dirPath (fsPath u)) files
            /\ (wellNamed disk ->
                Forall (fun u => noHiddenBaseName dirPath (fsPath u)) files)).
  { intros files Hok. destruct (Hout files Hok) as (found & -> & Hfound).
    split; [exact Hfound|].
    intros Hwell. revert Hfound. apply Forall_impl.
    intros u. now apply visibleBelow_basenames. }
  split; [exact Hev|]. split; [exact Hfiles|].
  intros resource st files Hpath Hstat Hdir.
  unfold getFilesFromResources, resourcesLoop, fs_statSync, call.
  rewrite Hpath, Hstat. unfold bind at 1. rewrite Hdir.
  destruct (getAllFilesFromDir disk fuel dirPath []) as [t [dirFiles|e|]];
    unfold bind, ret; simpl; try discriminate.
  intros [= <-]. now apply Hfiles.
Qed.

End Walk.

(** ** What [packFiles] writes *)

Section Formatter.

Variable disk : FileSystem.
Variable host : Host.

Lemma forEachFrom_tocEntry files : forall start packedContent,
  forEachFrom start (tocEntry host) files packedContent
  = ret (packedContent ++ tocLines host (start + 1) files).
Proof.
  induction files as [|fileUri files IH]; intros start packedContent; cbn [forEachFrom tocLines].
  - now rewrite append_empty_r.
  - unfold tocEntry at 1. rewrite bind_ret_l, IH.
    unfold tocLine. now rewrite !append_assoc.
Qed.

(** One turn of the second loop: the calls of [fileEvents], and the
    block of the file after what was written before. *)
Lemma fileEntry_run total fileUri index packedContent :
  fileEntry disk host total fileUri index packedContent
  = (fileEvents disk host fileUri,
     Ok (packedContent ++ fileBlock disk host total (index + 1) fileUri)).
Proof.
  unfold fileEntry, fileEvents, fileBlock, fs_readFileSync, fs_statSync.
  destruct (readFileSync disk (fsPath fileUri)) as [e|content]; unfold call.
  - unfold tryCatch, bind, emit, ret, readWarning; simpl.
    now rewrite append_empty_r.
  - destruct (statSync disk (fsPath fileUri)) as [e|fileStats].
    + unfold tryCatch, bind, emit, ret, readWarning; simpl.
      now rewrite append_empty_r.
    + unfold tryCatch, bind, ret. cbn [app].
      unfold fencedBlock, plainBlock, hashDivider, equalsDivider, fileLine, sizeLine,
        dividerLength.
      destruct (Js.truthy (getLanguageId (fsPath fileUri)));
        now rewrite !append_assoc.
Qed.

Lemma forEachFrom_fileEntry total files : forall start packedContent,
  forEachFrom start (fileEntry disk host total) files packedContent
  = (flat_map (fileEvents disk host) files,
     Ok (packedContent ++ fileBlocks disk host total (start + 1) files)).
Proof.
  induction files as [|fileUri files IH]; intros start packedContent;
    cbn [forEachFrom fileBlocks flat_map].
  - unfold ret. now rewrite append_empty_r.
  - rewrite fileEntry_run.
    rewrite bind_Ok with (t := fileEvents disk host fileUri)
                         (a := packedContent ++ fileBlock disk host total (start + 1) fileUri)
      by reflexivity.
    rewrite IH. unfold events, outcome; simpl. now rewrite append_assoc.
Qed.

(** The whole run of the formatter. *)
Lemma packFiles_run now files :
  packFiles disk host now files
  = (flat_map (fileEvents disk host) files,
     Ok (documentHead host now files
           ++ fileBlocks disk host (List.length files) 1 files)).
Proof.
  unfold packFiles, forEach.
  rewrite forEachFrom_tocEntry, bind_ret_l, forEachFrom_fileEntry.
  unfold documentHead, titleLine, totalLine, generatedLine, equalsDivider, dividerLength.
  change (0 + 1) with 1. rewrite !append_assoc. reflexivity.
Qed.


Lemma tocLines_numbered files : forall first,
  tocLines host first files
  = String.concat ""
      (map (fun entry => Js.ofNat (fst entry) ++ ". " ++ relativePath host (snd entry) ++ LF)
           (combine (seq first (List.length files)) files)).
Proof.
  induction files as [|fileUri files IH]; intros first; [reflexivity|].
  cbn [tocLines List.length seq combine map]. rewrite IH. unfold tocLine.
  destruct files as [|next files]; cbn [String.concat List.length seq combine map].
  - now rewrite !append_assoc.
  - now rewrite !append_assoc.
Qed.

End Formatter.

(** ** The head of the document (C5) *)

(** C5. The document starts with the title line, the line 'Total files'
    with the length of the list, the line with the generation time, the
    table of contents (after a blank line and its heading) with one line
    per file, numbered 1, 2, ... up to the length of the list in list
    order, and, after a blank line, a line of 80 '=' characters. *)
Theorem packFiles_head disk host now files :
  exists blocks,
    outcome (packFiles disk host now files)
    = Ok ("# Project Files Pack for LLM" ++ LF
          ++ "# Total files: " ++ Js.ofNat (List.length files) ++ LF
          ++ "# Generated: " ++ toISOString now ++ LF
          ++ LF
          ++ "## Files included:" ++ LF
          ++ String.concat ""
               (map (fun entry =>
                       Js.ofNat (fst entry) ++ ". " ++ relativePath host (snd entry) ++ LF)
                    (combine (seq 1 (List.length files)) files))
          ++ LF
          ++ Js.repeat "=" 80 ++ LF
          ++ LF
          ++ blocks)
    /\ List.length (combine (seq 1 (List.length files)) files) = List.length files
    /\ String.length (Js.repeat "=" 80) = 80%nat.
Proof.
  exists (fileBlocks disk host (List.length files) 1 files).
  split; [|split].
  - rewrite packFiles_run. unfold outcome, snd. f_equal.
    unfold documentHead, titleLine, totalLine, generatedLine, equalsDivider.
    rewrite tocLines_numbered. now rewrite !append_assoc.
  - rewrite length_combine, length_seq. apply Nat.min_id.
  - reflexivity.
Qed.

(** ** The block of a file (C6) *)



(** ** A file that cannot be read (C2) *)


Lemma fileBlock_unreadable disk host total number fileUri e :
  readFailure disk fileUri = Some e -> fileBlock disk host total number fileUri = "".
Proof.
  unfold readFailure, fileBlock.
  destruct (readFileSync disk (fsPath fileUri)) as [e1|content]; [reflexivity|].
  destruct (statSync disk (fsPath fileUri)) as [e2|st]; [reflexivity | discriminate].
Qed.


(** ** Two runs differ in the time stamp only (C7) *)

(** C7. On a given file system the formatter makes the same calls and
    writes the same text whatever the time is, except for the line
    '# Generated: ...', which carries the time of the run; with the same
    time two runs are identical. *)
Theorem packFiles_deterministic_but_timestamp disk host files :
  exists trace before after,
    forall now,
      packFiles disk host now files
      = (trace, Ok (before ++ "# Generated: " ++ toISOString now ++ LF ++ after)).
Proof.
  exists (flat_map (fileEvents disk host) files).
  exists (titleLine ++ totalLine (List.length files)).
  exists (LF ++ "## Files included:" ++ LF ++ tocLines host 1 files
            ++ LF ++ equalsDivider ++ LF
            ++ fileBlocks disk host (List.length files) 1 files).
  intros now. rewrite packFiles_run. f_equal. f_equal.
  unfold documentHead, generatedLine. now rewrite !append_assoc.
Qed.

(** ** The command *)

Lemma outcome_bind_Throw {A B} (m : M A) (k : A -> M B) e :
  outcome m = Throw e -> outcome (bind m k) = Throw e.
Proof. destruct m as [t r]; unfold outcome, bind; simpl. now intros ->. Qed.

Lemma staysVisible_isFsCall disk dirPath ev : staysVisible disk dirPath ev -> isFsCall ev.
Proof. destruct ev; simpl; tauto. Qed.

Section Command.

Variable disk : FileSystem.
Variable host : Host.

Lemma getAllFilesFromDir_fs_only fuel dirPath fileList :
  Forall isFsCall (events (getAllFilesFromDir disk fuel dirPath fileList)).
Proof.
  destruct (walk_invariant disk fuel dirPath fileList) as [Hev _].
  revert Hev. apply Forall_impl. intros ev. apply staysVisible_isFsCall.
Qed.

Lemma resourcesLoop_fs_only fuel resources : forall allFiles,
  Forall isFsCall (events (resourcesLoop disk fuel resources allFiles)).
Proof.
  induction resources as [|r rest IH]; intros allFiles; cbn [resourcesLoop].
  - constructor.
  - apply Forall_events_bind.
    + unfold fs_statSync, call.
      destruct (statSync disk (fsPath r)); now repeat constructor.
    + intros stat _. apply Forall_events_bind; [|intros; apply IH].
      destruct (isDirectory stat); [|constructor].
      apply Forall_events_bind; [apply getAllFilesFromDir_fs_only|].
      intros; constructor.
Qed.

Lemma getFilesFromResources_fs_only fuel resources :
  Forall isFsCall (events (getFilesFromResources disk fuel resources)).
Proof. apply resourcesLoop_fs_only. Qed.

(** What the command does with a selection that is not empty, by the
    way the resolution ends. *)
Lemma packSelection_run fuel now resources :
  resources <> [] ->
  packSelection disk host fuel now resources
  = let resolution := getFilesFromResources disk fuel resources in
    let started := ProgressReport "Processing selected resources..." :: events resolution in
    match outcome resolution with
    | Throw e =>
        ((started ++ [ShowErrorMessage ("Error packing files: " ++ errMessage e)])%list,
         Ok tt)
    | OutOfFuel => (started, OutOfFuel)
    | Ok [] =>
        ((started ++ [ShowWarningMessage "No files found in the selected resources."])%list,
         Ok tt)
    | Ok allFiles =>
        let content := packedDocument disk host now allFiles in
        ((started
          ++ ProgressReport ("Packing " ++ Js.ofNat (List.length allFiles) ++ " files...")
          :: flat_map (fileEvents disk host) allFiles
          ++ [OpenTextDocument content "markdown"; ShowTextDocument content;
              ShowInformationMessage
                ("Successfully packed " ++ Js.ofNat (List.length allFiles) ++ " files.")])%list,
         Ok tt)
    end.
Proof.
  intros Hne. unfold packSelection.
  destruct resources as [|r rest]; [contradiction|].
  cbn [List.length Nat.eqb].
  destruct (getFilesFromResources disk fuel (r :: rest)) as [t [allFiles|e|]];
    cbv zeta; unfold events, outcome, fst, snd.
  - destruct allFiles as [|f files].
    + unfold bind, tryCatch, emit; simpl. reflexivity.
    + cbv beta iota delta [bind tryCatch emit]. cbn [List.length Nat.eqb].
      rewrite packFiles_run. cbv beta iota. unfold packedDocument.
      cbn [app List.length]. reflexivity.
  - unfold bind, tryCatch, emit; simpl. reflexivity.
  - unfold bind, tryCatch, emit; simpl. reflexivity.
Qed.

Lemma isFsCall_no_document (trace : list Event) content language :
  Forall isFsCall trace -> ~ In (OpenTextDocument content language) trace.
Proof. intros H Hin. rewrite Forall_forall in H. exact (H _ Hin). Qed.

Lemma isFsCall_no_error (trace : list Event) msg :
  Forall isFsCall trace -> ~ In (ShowErrorMessage msg) trace.
Proof. intros H Hin. rewrite Forall_forall in H. exact (H _ Hin). Qed.

(** Without a resolved list there is no document. *)
Lemma packSelection_no_document fuel now resources :
  (forall files, outcome (getFilesFromResources disk fuel resources) <> Ok files) ->
  noDocument (packSelection disk host fuel now resources).
Proof.
  intros Hfail content language.
  destruct resources as [|r rest].
  { simpl. intros [H|[]]. discriminate. }
  rewrite packSelection_run by discriminate. cbv zeta.
  pose proof (getFilesFromResources_fs_only fuel (r :: rest)) as Hfs.
  destruct (outcome (getFilesFromResources disk fuel (r :: rest))) as [files|e|] eqn:E.
  - now destruct (Hfail files).
  - unfold events at 1, fst. intros [H|H]; [discriminate|].
    apply in_app_or in H as [H|[H|[]]]; [|discriminate].
    now apply (isFsCall_no_document _ _ _ Hfs) in H.
  - unfold events at 1, fst. intros [H|H]; [discriminate|].
    now apply (isFsCall_no_document _ _ _ Hfs) in H.
Qed.

Lemma packSelection_no_document_when_empty fuel now resources :
  resources <> [] ->
  outcome (getFilesFromResources disk fuel resources) = Ok [] ->
  noDocument (packSelection disk host fuel now resources).
Proof.
  intros Hne Hempty content language.
  pose proof (getFilesFromResources_fs_only fuel resources) as Hfs.
  rewrite packSelection_run by exact Hne. cbv zeta. rewrite Hempty.
  unfold events at 1, fst. intros [H|H]; [discriminate|].
  apply in_app_or in H as [H|[H|[]]]; [|discriminate].
  now apply (isFsCall_no_document _ _ _ Hfs) in H.
Qed.

End Command.

(** ** An entry the resolver cannot get past (C3) *)

Lemma getFilesFromResources_directory disk fuel r st :
  statSync disk (fsPath r) = inr st -> isDirectory st = true ->
  getFilesFromResources disk fuel [r]
  = (StatSync (fsPath r) :: events (getAllFilesFromDir disk fuel (fsPath r) []),
     outcome (getAllFilesFromDir disk fuel (fsPath r) [])).
Proof.
  intros Hstat Hdir.
  unfold getFilesFromResources, resourcesLoop, fs_statSync. rewrite Hstat. unfold call.
  rewrite bind_Ok with (t := [StatSync (fsPath r)]) (a := st) by reflexivity.
  rewrite Hdir. cbn [app]. rewrite !bind_ret_r. reflexivity.
Qed.

Lemma getFilesFromResources_entry_fails disk fuel r e :
  entryFails disk r e ->
  (forall files, outcome (getFilesFromResources disk fuel [r]) <> Ok files)
  /\ ((0 < fuel)%nat -> outcome (getFilesFromResources disk fuel [r]) = Throw e).
Proof.
  intros [Hstat | (st & Hstat & Hdir & Hlist)].
  - unfold getFilesFromResources, resourcesLoop, fs_statSync.
    rewrite Hstat; unfold call.
    split; [discriminate | reflexivity].
  - rewrite (getFilesFromResources_directory disk fuel r st Hstat Hdir).
    unfold outcome at 1 3, snd.
    destruct fuel as [|fuel]; cbn [getAllFilesFromDir].
    + split; [discriminate | intros H; inversion H].
    + unfold fs_readdirSync. rewrite Hlist. unfold call.
      split; [discriminate | reflexivity].
Qed.

Lemma getFilesFromResources_split disk fuel before r after :
  getFilesFromResources disk fuel (before ++ r :: after)
  = bind (getFilesFromResources disk fuel before) (fun front =>
    bind (bind (getFilesFromResources disk fuel [r]) (fun own =>
          bind (getFilesFromResources disk fuel after) (fun back =>
          ret (own ++ back)%list))) (fun rest =>
    ret (front ++ rest)%list)).
Proof.
  rewrite getFilesFromResources_app. apply bind_ext. intros front.
  now rewrite getFilesFromResources_cons.
Qed.

(** C3, as the code has it. When [statSync] throws for an entry, or the
    entry is a directory whose listing throws, the resolution returns no
    list and the command opens no document; if the entries before it
    resolve, the resolution throws that very error and the command shows
    it as 'Error packing files: ...'.  An entry that is a regular file
    which exists but cannot be read is not such an entry: it is resolved
    like any other file. *)
Theorem resolution_aborts_on_failing_entry disk host fuel now before r after e :
  entryFails disk r e ->
  (forall files,
      outcome (getFilesFromResources disk fuel (before ++ r :: after)) <> Ok files)
  /\ noDocument (packSelection disk host fuel now (before ++ r :: after))
  /\ (forall found,
        (0 < fuel)%nat ->
        outcome (getFilesFromResources disk fuel before) = Ok found ->
        outcome (getFilesFromResources disk fuel (before ++ r :: after)) = Throw e
        /\ In (ShowErrorMessage ("Error packing files: " ++ errMessage e))
              (events (packSelection disk host fuel now (before ++ r :: after)))).
Proof.
  intros Hfails.
  destruct (getFilesFromResources_entry_fails disk fuel r e Hfails) as [Hnone Hthrow].
  assert (Hno : forall files,
            outcome (getFilesFromResources disk fuel (before ++ r :: after)) <> Ok files).
  { intros files H. rewrite getFilesFromResources_split in H.
    apply outcome_bind_inv in H as (front & _ & H).
    apply outcome_bind_inv in H as (rest & H & _).
    apply outcome_bind_inv in H as (own & H & _).
    exact (Hnone own H). }
  split; [exact Hno|]. split; [now apply packSelection_no_document|].
  intros found Hfuel Hbefore.
  assert (Hout : outcome (getFilesFromResources disk fuel (before ++ r :: after)) = Throw e).
  { rewrite getFilesFromResources_split.
    rewrite (outcome_bind_Ok _ _ _ Hbefore).
    apply outcome_bind_Throw, outcome_bind_Throw. now apply Hthrow. }
  split; [exact Hout|].
  rewrite packSelection_run by now destruct before.
  cbv zeta. rewrite Hout. unfold events at 1, fst.
  right. apply in_or_app. right. now left.
Qed.

(** ** Nothing to pack (C9) *)

(** C9. With no entry point the command only warns 'No files or folders
    selected to pack.'; when the entry points resolve to no file it only
    reports progress, makes the calls of the resolution and warns 'No
    files found in the selected resources.'.  In both cases it opens no
    document, shows no error message and ends normally.  The handler
    [activate] does the former whenever its arguments, the active editor
    and the dialog give it no resource. *)
Theorem nothing_to_pack disk host fuel now :
  packSelection disk host fuel now []
  = ([ShowWarningMessage "No files or folders selected to pack."], Ok tt)
  /\ (forall resources,
        resources <> [] ->
        outcome (getFilesFromResources disk fuel resources) = Ok [] ->
        packSelection disk host fuel now resources
        = ((ProgressReport "Processing selected resources..."
            :: events (getFilesFromResources disk fuel resources)
            ++ [ShowWarningMessage "No files found in the selected resources."])%list,
           Ok tt)
        /\ noDocument (packSelection disk host fuel now resources)
        /\ noErrorMessage (packSelection disk host fuel now resources))
  /\ (forall args,
        outcome (selectResources host args) = Ok [] ->
        activate disk host fuel now args
        = ((events (selectResources host args)
            ++ [ShowWarningMessage "No files or folders selected to pack."])%list, Ok tt)
        /\ (events (selectResources host args) = []
            \/ events (selectResources host args) = [OpenDialog])).
Proof.
  split; [reflexivity|]. split.
  - intros resources Hne Hempty.
    pose proof (getFilesFromResources_fs_only disk fuel resources) as Hfs.
    assert (Hrun : packSelection disk host fuel now resources
                   = ((ProgressReport "Processing selected resources..."
                       :: events (getFilesFromResources disk fuel resources)
                       ++ [ShowWarningMessage "No files found in the selected resources."])%list,
                      Ok tt)).
    { rewrite packSelection_run by exact Hne. cbv zeta. now rewrite Hempty. }
    split; [exact Hrun|]. split.
    + apply packSelection_no_document_when_empty; assumption.
    + intros msg. rewrite Hrun. unfold events at 1, fst.
      intros [H|H]; [discriminate|].
      apply in_app_or in H as [H|[H|[]]]; [|discriminate].
      now apply (isFsCall_no_error _ _ Hfs) in H.
  - intros args Hsel. unfold activate.
    assert (Hev : events (selectResources host args) = []
                  \/ events (selectResources host args) = [OpenDialog]).
    { unfold selectResources.
      destruct (List.length (resourcesOfArgs args) =? 0)%nat; [|now left].
      destruct (activeTextEditor host); [now left|].
      right. now destruct (showOpenDialog host). }
    split; [|exact Hev].
    destruct (selectResources host args) as [t [selected|e|]];
      unfold outcome, snd in Hsel; try discriminate.
    injection Hsel as ->. reflexivity.
Qed.

(** ** The sample project: the statements above at work *)

(** Three files are selected and one of them cannot be read: the document
    has the two other blocks, and one message names the third file. *)
Example unreadable_among_three :
  let selection := [mkUri "/proj/a.py"; mkUri "/proj/secret.txt"; mkUri "/proj/notes.xyz"] in
  events (packSelection sampleDisk bareHost 1 sampleNow selection)
  = [ProgressReport "Processing selected resources...";
     StatSync "/proj/a.py"; StatSync "/proj/secret.txt"; StatSync "/proj/notes.xyz";
     ProgressReport "Packing 3 files...";
     ReadFileSync "/proj/a.py"; StatSync "/proj/a.py";
     ReadFileSync "/proj/secret.txt";
     ShowErrorMessage
       "Error reading file /proj/secret.txt: Error: EACCES: permission denied, open '/proj/secret.txt'";
     ReadFileSync "/proj/notes.xyz"; StatSync "/proj/notes.xyz";
     OpenTextDocument (packedDocument sampleDisk bareHost sampleNow selection) "markdown";
     ShowTextDocument (packedDocument sampleDisk bareHost sampleNow selection);
     ShowInformationMessage "Successfully packed 3 files."]
  /\ packedDocument sampleDisk bareHost sampleNow selection
     = documentHead bareHost sampleNow selection
       ++ fencedBlock bareHost 3 1 (mkUri "/proj/a.py")
            (mkStats false 9 (mkDate "2025-03-08T10:00:00.000Z")) "python" ("print(1)" ++ LF)
       ++ plainBlock bareHost 3 3 (mkUri "/proj/notes.xyz")
            (mkStats false 3 (mkDate "2025-03-08T16:00:00.000Z")) "abc".
Proof. split; reflexivity. Qed.

(** The sentence C3 as written fails on a selected file that exists and
    cannot be read: it is resolved, and the document is opened. *)
Lemma unreadable_file_does_not_abort :
  ~ abortsWhenUnreadable sampleDisk bareHost 1 sampleNow [mkUri "/proj/secret.txt"].
Proof.
  intros H. destruct H as [Hnone _].
  - exists (mkUri "/proj/secret.txt"). split; [now left|].
    exists (accessDenied "open" "/proj/secret.txt"). reflexivity.
  - apply (Hnone [mkUri "/proj/secret.txt"]). reflexivity.
Qed.

Example unreadable_file_is_packed :
  exists content,
    In (OpenTextDocument content "markdown")
       (events (activate sampleDisk bareHost 1 sampleNow [ArgUri (mkUri "/proj/secret.txt")])).
Proof. eexists. vm_compute. do 5 right. left. reflexivity. Qed.

Lemma sampleDisk_wellNamed : wellNamed sampleDisk.
Proof.
  intros dir files H.
  unfold sampleDisk, diskOf, readdirSync, sampleTree, nodeAt in H.
  repeat match type of H with
         | context [if ?b then _ else _] => destruct b
         end;
    try discriminate; injection H as <-;
    repeat (constructor; [split; [discriminate | repeat constructor; discriminate]|]);
    constructor.
Qed.

Lemma getAllFilesFromDir_prunes_hidden_witness :
  Forall (fun u => noHiddenBaseName "/proj" (fsPath u))
    [mkUri "/proj/a.py"; mkUri "/proj/sub/b.js"; mkUri "/proj/secret.txt";
     mkUri "/proj/notes.xyz"]
  /\ Forall (fun u => visibleBelow sampleDisk "/proj/sub" (fsPath u)) [mkUri "/proj/sub/b.js"].
Proof.
  split.
  - apply (proj1 (proj2 (getAllFilesFromDir_prunes_hidden sampleDisk 3 "/proj"))).
    + reflexivity.
    + exact sampleDisk_wellNamed.
  - apply (proj2 (proj2 (getAllFilesFromDir_prunes_hidden sampleDisk 3 "/proj/sub"))
             (mkUri "/proj/sub") (mkStats true 4096 epoch));
      reflexivity.
Defined.


Lemma resolution_aborts_on_failing_entry_witness :
  outcome (getFilesFromResources sampleDisk 2
             [mkUri "/proj/a.py"; mkUri "/proj/missing"; mkUri "/proj/sub"])
  = Throw (noEntry "stat" "/proj/missing")
  /\ outcome (getFilesFromResources sampleDisk 2 [mkUri "/proj/locked"])
     = Throw (accessDenied "scandir" "/proj/locked").
Proof.
  split.
  - apply (proj2 (proj2 (resolution_aborts_on_failing_entry sampleDisk bareHost 2 sampleNow
                           [mkUri "/proj/a.py"] (mkUri "/proj/missing") [mkUri "/proj/sub"]
                           (noEntry "stat" "/proj/missing") (or_introl eq_refl)))
             [mkUri "/proj/a.py"]).
    + lia.
    + reflexivity.
  - apply (proj2 (proj2 (resolution_aborts_on_failing_entry sampleDisk bareHost 2 sampleNow
                           [] (mkUri "/proj/locked") []
                           (accessDenied "scandir" "/proj/locked")
                           (or_intror (ex_intro _ (mkStats true 4096 epoch)
                                         (conj eq_refl (conj eq_refl eq_refl))))))
             []).
    + lia.
    + reflexivity.
Defined.

Lemma selected_file_is_kept_witness :
  Js.startsWith ".hidden.rs" "." = true
  /\ outcome (getFilesFromResources sampleDisk 0 [mkUri "/proj/.hidden.rs"])
     = Ok [mkUri "/proj/.hidden.rs"].
Proof.
  split; [reflexivity|].
  apply (proj1 (selected_file_is_kept sampleDisk 0 (mkUri "/proj/.hidden.rs")
                  (mkStats false 12 (mkDate "2025-03-08T14:00:00.000Z")) eq_refl eq_refl)).
Defined.


Lemma getFilesFromResources_concat_witness :
  outcome (getFilesFromResources sampleDisk 1 [mkUri "/proj/sub"; mkUri "/proj/sub/b.js"])
  = Ok [mkUri "/proj/sub/b.js"; mkUri "/proj/sub/b.js"].
Proof.
  apply (getFilesFromResources_concat sampleDisk 1
           [mkUri "/proj/sub"; mkUri "/proj/sub/b.js"]
           [[mkUri "/proj/sub/b.js"]; [mkUri "/proj/sub/b.js"]]).
  repeat constructor.
Defined.

Lemma nothing_to_pack_witness :
  packSelection sampleDisk bareHost 1 sampleNow [mkUri "/proj/empty"]
  = ([ProgressReport "Processing selected resources...";
      StatSync "/proj/empty"; ReaddirSync "/proj/empty";
      ShowWarningMessage "No files found in the selected resources."], Ok tt)
  /\ activate sampleDisk bareHost 1 sampleNow []
     = ([OpenDialog; ShowWarningMessage "No files or folders selected to pack."], Ok tt).
Proof.
  destruct (nothing_to_pack sampleDisk bareHost 1 sampleNow) as (_ & Hresolved & Hargs).
  split.
  - apply (Hresolved [mkUri "/proj/empty"]); [discriminate | reflexivity].
  - apply (Hargs []). reflexivity.
Defined.

(** The sample project is two levels deep, and is walked with fuel 2. *)
Example sample_project_walkable : walkable sampleDisk 2 "/proj".
Proof.
  exists ["a.py"; "sub"; ".hidden.rs"; "secret.txt"; "notes.xyz"; "empty"].
  split; [reflexivity|].
  repeat (apply Forall_cons || apply Forall_nil).
  - eexists. split; [reflexivity|]. intros _ Hdir. discriminate Hdir.
  - eexists. split; [reflexivity|]. intros _ _.
    exists ["b.js"; ".env"; ".git"]. split; [reflexivity|].
    repeat (apply Forall_cons || apply Forall_nil).
    + eexists. split; [reflexivity|]. intros _ Hdir. discriminate Hdir.
    + eexists. split; [reflexivity|]. intros _ Hdir. discriminate Hdir.
    + eexists. split; [reflexivity|]. intros Hdot _. discriminate Hdot.
  - eexists. split; [reflexivity|]. intros Hdot _. discriminate Hdot.
  - eexists. split; [reflexivity|]. intros _ Hdir. discriminate Hdir.
  - eexists. split; [reflexivity|]. intros _ Hdir. discriminate Hdir.
  - eexists. split; [reflexivity|]. intros _ _.
    exists []. split; [reflexivity | constructor].
Qed.

Example sample_project_walk_returns :
  exists out, outcome (getAllFilesFromDir sampleDisk 2 "/proj" []) = Ok out.
Proof. apply getAllFilesFromDir_returns. exact sample_project_walkable. Qed.


(** * Further properties of the code *)

(** ** The walk and the list it fills *)

Section WalkComposition.

Variable disk : FileSystem.

(** The body of the [forEach] of [getAllFilesFromDir]. *)
Lemma walk_entry_accumulates fuel dirPath file fileList
    (IH : forall sub l,
            getAllFilesFromDir disk fuel sub l
            = bind (getAllFilesFromDir disk fuel sub [])
                   (fun found => ret (l ++ found)%list)) :
  bind (fs_statSync disk (path.join dirPath file)) (fun stat =>
    if Js.startsWith file "." then ret fileList
    else if isDirectory stat
         then getAllFilesFromDir disk fuel (path.join dirPath file) fileList
         else ret (fileList ++ [Uri_file (path.join dirPath file)])%list)
  = bind (bind (fs_statSync disk (path.join dirPath file)) (fun stat =>
      if Js.startsWith file "." then ret []
      else if isDirectory stat
           then getAllFilesFromDir disk fuel (path.join dirPath file) []
           else ret ([] ++ [Uri_file (path.join dirPath file)])%list))
      (fun found => ret (fileList ++ found)%list).
Proof.
  rewrite bind_assoc. apply bind_ext. intros stat.
  destruct (Js.startsWith file ".").
  - now rewrite bind_ret_l, app_nil_r.
  - destruct (isDirectory stat).
    + apply IH.
    + now rewrite bind_ret_l.
Qed.

Lemma walk_entries_accumulate fuel dirPath
    (IH : forall sub l,
            getAllFilesFromDir disk fuel sub l
            = bind (getAllFilesFromDir disk fuel sub [])
                   (fun found => ret (l ++ found)%list)) :
  forall files start fileList,
    forEachFrom start (fun file (_ : nat) fileList =>
      bind (fs_statSync disk (path.join dirPath file)) (fun stat =>
        if Js.startsWith file "." then ret fileList
        else if isDirectory stat
             then getAllFilesFromDir disk fuel (path.join dirPath file) fileList
             else ret (fileList ++ [Uri_file (path.join dirPath file)])%list))
      files fileList
    = bind (forEachFrom start (fun file (_ : nat) fileList =>
        bind (fs_statSync disk (path.join dirPath file)) (fun stat =>
          if Js.startsWith file "." then ret fileList
          else if isDirectory stat
               then getAllFilesFromDir disk fuel (path.join dirPath file) fileList
               else ret (fileList ++ [Uri_file (path.join dirPath file)])%list))
        files [])
        (fun found => ret (fileList ++ found)%list).
Proof.
  induction files as [|file files IHfiles]; intros start fileList; cbn [forEachFrom].
  - now rewrite bind_ret_l, app_nil_r.
  - rewrite (walk_entry_accumulates fuel dirPath file fileList IH).
    rewrite !bind_assoc. apply bind_ext. intros stat. apply bind_ext. intros found.
    rewrite bind_ret_l.
    rewrite (IHfiles (S start) (fileList ++ found)%list), (IHfiles (S start) found).
    rewrite bind_assoc. apply bind_ext. intros rest.
    now rewrite bind_ret_l, app_assoc.
Qed.

(** The walk never looks at the list it is given: it runs as on an empty
    list and puts what it finds after it. *)
Lemma walk_accumulates fuel : forall dirPath fileList,
  getAllFilesFromDir disk fuel dirPath fileList
  = bind (getAllFilesFromDir disk fuel dirPath [])
         (fun found => ret (fileList ++ found)%list).
Proof.
  induction fuel as [|fuel IH]; intros dirPath fileList.
  - reflexivity.
  - rewrite !getAllFilesFromDir_S. rewrite bind_assoc. apply bind_ext. intros files.
    apply (walk_entries_accumulate fuel dirPath IH).
Qed.

Lemma walk_entry_outcome fuel dirPath name found fileList :
  entryYields disk fuel dirPath name found ->
  outcome (bind (fs_statSync disk (path.join dirPath name)) (fun stat =>
             if Js.startsWith name "." then ret fileList
             else if isDirectory stat
                  then getAllFilesFromDir disk fuel (path.join dirPath name) fileList
                  else ret (fileList ++ [Uri_file (path.join dirPath name)])%list))
  = Ok (fileList ++ found)%list.
Proof.
  intros (st & Hstat & Hfound). unfold fs_statSync. rewrite Hstat. unfold call.
  rewrite bind_Ok with (t := [StatSync (path.join dirPath name)]) (a := st) by reflexivity.
  unfold outcome at 1, snd.
  destruct (Js.startsWith name ".").
  - subst found. now rewrite app_nil_r.
  - destruct (isDirectory st).
    + rewrite walk_accumulates. now rewrite (outcome_bind_Ok _ _ _ Hfound).
    + now subst found.
Qed.

Lemma walk_entries_outcome fuel dirPath files perEntry :
  Forall2 (entryYields disk fuel dirPath) files perEntry ->
  forall start fileList,
    outcome (forEachFrom start (fun file (_ : nat) fileList =>
               bind (fs_statSync disk (path.join dirPath file)) (fun stat =>
                 if Js.startsWith file "." then ret fileList
                 else if isDirectory stat
                      then getAllFilesFromDir disk fuel (path.join dirPath file) fileList
                      else ret (fileList ++ [Uri_file (path.join dirPath file)])%list))
               files fileList)
    = Ok (fileList ++ concat perEntry)%list.
Proof.
  induction 1 as [|name found files perEntry Hname _ IH]; intros start fileList.
  - cbn [forEachFrom concat]. now rewrite app_nil_r.
  - cbn [forEachFrom concat].
    rewrite (outcome_bind_Ok _ _ _ (walk_entry_outcome fuel dirPath name found fileList Hname)).
    now rewrite IH, app_assoc.
Qed.

(** X1. The list handed to [getAllFilesFromDir] is only appended to: the
    walk makes the calls and meets the fate it would on an empty list,
    and returns the given list followed by what that walk finds.  Sharing
    one array between the levels of the recursion changes nothing. *)
Theorem getAllFilesFromDir_appends fuel dirPath fileList :
  getAllFilesFromDir disk fuel dirPath fileList
  = bind (getAllFilesFromDir disk fuel dirPath [])
         (fun found => ret (fileList ++ found)%list).
Proof. apply walk_accumulates. Qed.

(** X3. The files of a directory come out in the order of its listing,
    depth first: when each entry of the listing can be looked at, the
    walk returns the given list followed by, entry after entry, nothing
    for a hidden entry, the files found below a directory (by a walk of
    that directory on its own), and the entry itself otherwise. *)
Theorem getAllFilesFromDir_in_listing_order fuel dirPath files perEntry fileList :
  readdirSync disk dirPath = inr files ->
  Forall2 (entryYields disk fuel dirPath) files perEntry ->
  outcome (getAllFilesFromDir disk (S fuel) dirPath fileList)
  = Ok (fileList ++ concat perEntry)%list.
Proof.
  intros Hlist Hentries.
  rewrite getAllFilesFromDir_S. unfold fs_readdirSync. rewrite Hlist. unfold call.
  rewrite bind_Ok with (t := [ReaddirSync dirPath]) (a := files) by reflexivity.
  unfold outcome at 1, snd. unfold forEach.
  now apply walk_entries_outcome.
Qed.

Lemma getAllFilesFromDir_flat_run fuel dirPath files fileList :
  readdirSync disk dirPath = inr files ->
  Forall (fun name =>
            exists st, statSync disk (path.join dirPath name) = inr st
                       /\ (Js.startsWith name "." = false -> isDirectory st = false))
         files ->
  getAllFilesFromDir disk (S fuel) dirPath fileList
  = (ReaddirSync dirPath :: map (fun name => StatSync (path.join dirPath name)) files,
     Ok (fileList
         ++ map (fun name => Uri_file (path.join dirPath name))
                (filter (fun name => negb (Js.startsWith name ".")) files))%list).
Proof.
  intros Hlist Hentries.
  rewrite getAllFilesFromDir_S. unfold fs_readdirSync. rewrite Hlist. unfold call.
  rewrite bind_Ok with (t := [ReaddirSync dirPath]) (a := files) by reflexivity.
  unfold forEach. clear Hlist.
  enough (Hloop : forall start l,
            forEachFrom start (fun file (_ : nat) fileList =>
              bind (fs_statSync disk (path.join dirPath file)) (fun stat =>
                if Js.startsWith file "." then ret fileList
                else if isDirectory stat
                     then getAllFilesFromDir disk fuel (path.join dirPath file) fileList
                     else ret (fileList ++ [Uri_file (path.join dirPath file)])%list))
              files l
            = (map (fun name => StatSync (path.join dirPath name)) files,
               Ok (l ++ map (fun name => Uri_file (path.join dirPath name))
                            (filter (fun name => negb (Js.startsWith name ".")) files))%list)).
  { now rewrite Hloop. }
  induction Hentries as [|name files (st & Hstat & Hfile) _ IH]; intros start l.
  - cbn [forEachFrom map filter]. unfold ret. now rewrite app_nil_r.
  - cbn [forEachFrom map filter]. unfold fs_statSync. rewrite Hstat. unfold call.
    rewrite bind_Ok with (t := [StatSync (path.join dirPath name)]) (a := st) by reflexivity.
    destruct (Js.startsWith name ".") eqn:Hdot; cbn [negb].
    + unfold ret at 1. unfold events, outcome, fst, snd. cbn [app].
      rewrite bind_Ok with (t := [StatSync (path.join dirPath name)]) (a := l)
        by reflexivity.
      rewrite IH. reflexivity.
    + rewrite (Hfile eq_refl). unfold ret at 1. unfold events, outcome, fst, snd. cbn [app].
      rewrite bind_Ok with (t := [StatSync (path.join dirPath name)])
                           (a := (l ++ [Uri_file (path.join dirPath name)])%list)
        by reflexivity.
      rewrite IH. unfold events, outcome, fst, snd. cbn [map app].
      now rewrite <- app_assoc.
Qed.

(** X4. A directory without visible subdirectories costs one listing and
    one look at each entry, and yields its visible entries in listing
    order: when every entry can be looked at and every entry that is not
    hidden is a file, the walk makes exactly these calls and returns the
    given list followed by the joined paths of the entries whose names
    do not start with a dot. *)
Theorem getAllFilesFromDir_flat fuel dirPath files fileList :
  readdirSync disk dirPath = inr files ->
  Forall (fun name =>
            exists st, statSync disk (path.join dirPath name) = inr st
                       /\ (Js.startsWith name "." = false -> isDirectory st = false))
         files ->
  getAllFilesFromDir disk (S fuel) dirPath fileList
  = (ReaddirSync dirPath :: map (fun name => StatSync (path.join dirPath name)) files,
     Ok (fileList
         ++ map (fun name => Uri_file (path.join dirPath name))
                (filter (fun name => negb (Js.startsWith name ".")) files))%list).
Proof. apply getAllFilesFromDir_flat_run. Qed.

(** X2. One entry that cannot be looked at makes the whole walk of its
    directory fail, whatever its name: [statSync] comes before the test
    of the leading dot, so a hidden entry whose [statSync] throws (a
    dangling link, say) aborts the walk like any other, and no list is
    returned. *)
Theorem getAllFilesFromDir_entry_stat_fails fuel dirPath files name e fileList :
  readdirSync disk dirPath = inr files ->
  In name files ->
  statSync disk (path.join dirPath name) = inl e ->
  forall out, outcome (getAllFilesFromDir disk (S fuel) dirPath fileList) <> Ok out.
Proof.
  intros Hlist Hin Hstat out Hok.
  rewrite getAllFilesFromDir_S in Hok. unfold fs_readdirSync in Hok.
  rewrite Hlist in Hok. unfold call in Hok.
  rewrite bind_Ok with (t := [ReaddirSync dirPath]) (a := files) in Hok by reflexivity.
  unfold outcome at 1, snd in Hok. unfold forEach in Hok.
  apply in_split in Hin as (before & after & ->).
  rewrite forEachFrom_app in Hok.
  apply outcome_bind_inv in Hok as (l & _ & Hok).
  cbn [forEachFrom] in Hok.
  apply outcome_bind_inv in Hok as (l' & Hok & _).
  unfold fs_statSync in Hok. rewrite Hstat in Hok. discriminate Hok.
Qed.

End WalkComposition.

(** X5. The walk of a directory tree that can be walked within [depth]
    levels (every directory entered can be listed, every entry can be
    looked at) returns a list, and the calls it makes and the list it
    returns are the same for every bound on the recursion from [depth]
    on. *)
Theorem getAllFilesFromDir_returns_on_tree disk depth dirPath fileList :
  walkable disk depth dirPath ->
  exists trace out,
    forall extra,
      getAllFilesFromDir disk (extra + depth) dirPath fileList = (trace, Ok out).
Proof.
  intros Hwalk.
  destruct (getAllFilesFromDir_returns disk depth dirPath fileList Hwalk) as (out & Hout).
  exists (events (getAllFilesFromDir disk depth dirPath fileList)), out.
  intros extra. rewrite getAllFilesFromDir_enough_fuel.
  - destruct (getAllFilesFromDir disk depth dirPath fileList) as [t r].
    unfold outcome, snd in Hout. now subst r.
  - unfold settled. now rewrite Hout.
Qed.

Lemma getAllFilesFromDir_in_listing_order_witness :
  outcome (getAllFilesFromDir sampleDisk 2 "/proj" [mkUri "/first"])
  = Ok [mkUri "/first"; mkUri "/proj/a.py"; mkUri "/proj/sub/b.js"; mkUri "/proj/secret.txt";
        mkUri "/proj/notes.xyz"].
Proof.
  apply (getAllFilesFromDir_in_listing_order sampleDisk 1 "/proj"
           ["a.py"; "sub"; ".hidden.rs"; "secret.txt"; "notes.xyz"; "empty"]
           [[mkUri "/proj/a.py"]; [mkUri "/proj/sub/b.js"]; []; [mkUri "/proj/secret.txt"];
            [mkUri "/proj/notes.xyz"]; []]
           [mkUri "/first"]).
  - reflexivity.
  - repeat (constructor; [eexists; split; reflexivity|]). constructor.
Defined.

Lemma getAllFilesFromDir_flat_witness :
  getAllFilesFromDir sampleDisk 1 "/proj/sub" []
  = ([ReaddirSync "/proj/sub"; StatSync "/proj/sub/b.js"; StatSync "/proj/sub/.env";
      StatSync "/proj/sub/.git"],
     Ok [mkUri "/proj/sub/b.js"]).
Proof.
  apply (getAllFilesFromDir_flat sampleDisk 0 "/proj/sub" ["b.js"; ".env"; ".git"] []).
  - reflexivity.
  - repeat (constructor;
            [eexists; split; [reflexivity | intros Hdot; first [reflexivity | discriminate Hdot]]|]).
    constructor.
Defined.

Lemma getAllFilesFromDir_entry_stat_fails_witness :
  Js.startsWith ".lock" "." = true
  /\ forall out, outcome (getAllFilesFromDir danglingDisk 1 "/repo" []) <> Ok out.
Proof.
  split; [reflexivity|].
  apply (getAllFilesFromDir_entry_stat_fails danglingDisk 0 "/repo" ["main.go"; ".lock"] ".lock"
           (noEntry "stat" "/repo/.lock") []).
  - reflexivity.
  - simpl. right. left. reflexivity.
  - reflexivity.
Defined.

Lemma getAllFilesFromDir_returns_on_tree_witness :
  exists trace out,
    forall extra, getAllFilesFromDir sampleDisk (extra + 2) "/proj" [] = (trace, Ok out).
Proof.
  apply (getAllFilesFromDir_returns_on_tree sampleDisk 2 "/proj" []).
  exact sample_project_walkable.
Defined.

(** ** What the formatter reads and shows *)

Lemma readPaths_app t1 t2 : readPaths (t1 ++ t2) = (readPaths t1 ++ readPaths t2)%list.
Proof.
  induction t1 as [|ev t1 IH]; [reflexivity|].
  destruct ev; cbn [app readPaths]; rewrite IH; reflexivity.
Qed.


Lemma fileEvents_readPaths disk host fileUri :
  readPaths (fileEvents disk host fileUri) = [fsPath fileUri].
Proof.
  unfold fileEvents.
  destruct (readFileSync disk (fsPath fileUri)); [reflexivity|].
  destruct (statSync disk (fsPath fileUri)); reflexivity.
Qed.



Lemma fileBlocks_unreadable disk host total files : forall first,
  Forall (fun fileUri => readFailure disk fileUri <> None) files ->
  fileBlocks disk host total first files = "".
Proof.
  induction files as [|fileUri files IH]; intros first Hall; [reflexivity|].
  inversion Hall as [|? ? Hfail Hrest]; subst. cbn [fileBlocks].
  destruct (readFailure disk fileUri) as [e|] eqn:E; [|contradiction].
  rewrite (fileBlock_unreadable _ _ _ _ _ _ E). now apply IH.
Qed.

(** X6. The formatter reads every file of its list exactly once, in list
    order, whether or not earlier reads failed: the paths given to
    [readFileSync] during a run are the paths of the list. *)
Theorem packFiles_reads_each_file_once disk host now files :
  readPaths (events (packFiles disk host now files)) = map fsPath files.
Proof.
  rewrite packFiles_run. unfold events, fst.
  induction files as [|fileUri files IH]; [reflexivity|].
  cbn [flat_map map]. now rewrite readPaths_app, fileEvents_readPaths, IH.
Qed.



(** X9. When no file of the list can be read the formatter still returns
    a document: the head alone, whose table of contents lists every
    file, without any block. *)
Theorem packFiles_all_unreadable disk host now files :
  Forall (fun fileUri => readFailure disk fileUri <> None) files ->
  outcome (packFiles disk host now files) = Ok (documentHead host now files).
Proof.
  intros Hall. rewrite packFiles_run. unfold outcome, snd.
  now rewrite (fileBlocks_unreadable _ _ _ _ _ Hall), append_empty_r.
Qed.


Lemma packFiles_all_unreadable_witness :
  outcome (packFiles sampleDisk bareHost sampleNow [mkUri "/proj/secret.txt"; mkUri "/gone"])
  = Ok (documentHead bareHost sampleNow [mkUri "/proj/secret.txt"; mkUri "/gone"]).
Proof.
  apply (packFiles_all_unreadable sampleDisk bareHost sampleNow
           [mkUri "/proj/secret.txt"; mkUri "/gone"]).
  repeat (constructor; [discriminate|]). constructor.
Defined.

(** ** The extension of a file name *)

Lemma extLoop_plain chars : forall rest i st,
  Forall (fun c => c <> "."%char /\ c <> "/"%char) chars ->
  path.startDot st = (-1)%Z -> path.endIdx st <> (-1)%Z ->
  path.extLoop (chars ++ rest) i st
  = path.extLoop rest (i - Z.of_nat (List.length chars)) st.
Proof.
  induction chars as [|c chars IH]; intros rest i st Hchars Hdot Hend.
  - cbn [app List.length path.extLoop]. f_equal. lia.
  - inversion Hchars as [|? ? [Hc1 Hc2] Hrest]; subst.
    cbn [app path.extLoop]. unfold path.extStep.
    apply Ascii.eqb_neq in Hc1, Hc2. rewrite Hc1, Hc2.
    pose proof Hend as Hend'. apply Z.eqb_neq in Hend'. rewrite Hend'.
    rewrite Hdot. change (-1 =? -1)%Z with true. cbn [negb].
    rewrite IH by assumption. f_equal. cbn [List.length]. lia.
Qed.

(** The scan of a name without dot, then of the dot before it. *)
Lemma extLoop_name chars rest i :
  chars <> [] ->
  Forall (fun c => c <> "."%char /\ c <> "/"%char) chars ->
  (0 <= i)%Z ->
  path.extLoop (chars ++ rest) i path.extScanInit
  = path.extLoop rest (i - Z.of_nat (List.length chars))
      (path.mkExtScan (-1) 0 (i + 1) false 0).
Proof.
  intros Hne Hchars Hi. destruct chars as [|c chars]; [contradiction|].
  inversion Hchars as [|? ? [Hc1 Hc2] Hrest]; subst.
  cbn [app path.extLoop]. unfold path.extStep, path.extScanInit.
  apply Ascii.eqb_neq in Hc1, Hc2. rewrite Hc1, Hc2.
  cbn [path.endIdx path.startDot path.startPart path.preDotState path.matchedSlash].
  change (-1 =? -1)%Z with true. cbn [negb].
  cbn [path.endIdx path.startDot path.startPart path.preDotState path.matchedSlash].
  change (-1 =? -1)%Z with true. cbn [negb].
  rewrite extLoop_plain; [|exact Hrest | reflexivity | cbn [path.endIdx]; lia].
  f_equal. cbn [List.length]. lia.
Qed.

Lemma extLoop_name_dot chars rest i :
  Forall (fun c => c <> "."%char /\ c <> "/"%char) chars ->
  (0 <= i - Z.of_nat (List.length chars))%Z ->
  path.extLoop (chars ++ "."%char :: rest) i path.extScanInit
  = path.extLoop rest (i - Z.of_nat (List.length chars) - 1)
      (path.mkExtScan (i - Z.of_nat (List.length chars)) 0 (i + 1) false 0).
Proof.
  intros Hchars Hi. destruct chars as [|c chars].
  - cbn [app List.length path.extLoop]. unfold path.extStep, path.extScanInit.
    cbn [Ascii.eqb Bool.eqb andb
         path.endIdx path.startDot path.startPart path.preDotState path.matchedSlash].
    change (-1 =? -1)%Z with true. cbv iota.
    cbn [path.endIdx path.startDot path.startPart path.preDotState path.matchedSlash].
    change (-1 =? -1)%Z with true. cbv iota.
    replace (i - Z.of_nat 0)%Z with i by (cbn; lia). reflexivity.
  - rewrite extLoop_name by (try discriminate; try assumption; lia).
    cbn [path.extLoop]. unfold path.extStep.
    cbn [Ascii.eqb Bool.eqb andb
         path.endIdx path.startDot path.startPart path.preDotState path.matchedSlash].
    replace (i + 1 =? -1)%Z with false by (symmetry; apply Z.eqb_neq; lia).
    change (-1 =? -1)%Z with true. cbv iota.
    reflexivity.
Qed.

(** Once a dot and a character before it were seen, the rest of the scan
    keeps the extension. *)
Lemma extLoop_keeps chars : forall i st,
  path.startDot st <> (-1)%Z -> path.endIdx st <> (-1)%Z -> path.preDotState st <> 0%Z ->
  path.startDot (path.extLoop chars i st) = path.startDot st
  /\ path.endIdx (path.extLoop chars i st) = path.endIdx st
  /\ path.preDotState (path.extLoop chars i st) <> 0%Z.
Proof.
  induction chars as [|c chars IH]; intros i st Hdot Hend Hpre; [now repeat split|].
  cbn [path.extLoop]. unfold path.extStep.
  pose proof Hdot as Hdot'. apply Z.eqb_neq in Hdot'.
  pose proof Hend as Hend'. apply Z.eqb_neq in Hend'.
  destruct (c =? "/")%char.
  - destruct (path.matchedSlash st); cbn [negb].
    + now apply IH.
    + now repeat split.
  - rewrite Hend'. destruct (c =? ".")%char.
    + rewrite Hdot'. destruct (path.preDotState st =? 1)%Z; cbn [negb].
      * now apply IH.
      * destruct (IH (i - 1)%Z (path.mkExtScan (path.startDot st) (path.startPart st)
                                  (path.endIdx st) (path.matchedSlash st) 1))
          as (H1 & H2 & H3); cbn; try assumption; try lia.
        now repeat split.
    + rewrite Hdot'. cbn [negb].
      destruct (IH (i - 1)%Z (path.mkExtScan (path.startDot st) (path.startPart st)
                                (path.endIdx st) (path.matchedSlash st) (-1)))
        as (H1 & H2 & H3); cbn; try assumption; try lia.
      now repeat split.
Qed.

Lemma extStep_seen i c dot part stop slash pre :
  (c =? "/")%char = false -> dot <> (-1)%Z -> stop <> (-1)%Z ->
  path.extStep i c (path.mkExtScan dot part stop slash pre)
  = (path.mkExtScan dot part stop slash
       (if (c =? ".")%char then (if (pre =? 1)%Z then pre else 1%Z) else (-1)%Z), false).
Proof.
  intros Hc Hdot Hstop. unfold path.extStep. rewrite Hc.
  cbn [path.endIdx path.startDot path.startPart path.preDotState path.matchedSlash].
  apply Z.eqb_neq in Hstop. rewrite Hstop.
  cbn [path.endIdx path.startDot path.startPart path.preDotState path.matchedSlash].
  apply Z.eqb_neq in Hdot. rewrite Hdot.
  destruct (c =? ".")%char; [|reflexivity].
  destruct (pre =? 1)%Z; reflexivity.
Qed.

Lemma plainChars_backwards s :
  plainChars s ->
  Forall (fun c => c <> "."%char /\ c <> "/"%char) (rev (list_ascii_of_string s)).
Proof. apply Forall_rev. Qed.

Lemma backwards_dotted stem ext :
  rev (list_ascii_of_string (stem ++ "." ++ ext))
  = (rev (list_ascii_of_string ext) ++ "."%char :: rev (list_ascii_of_string stem))%list.
Proof.
  rewrite chars_append. cbn [append list_ascii_of_string].
  rewrite rev_app_distr. cbn [rev]. now rewrite <- app_assoc.
Qed.

(** The extension of [stem.ext]. *)
Lemma extname_dotted stem ext :
  stem <> "" -> path.endsWithSlash stem = false ->
  ext <> "" -> plainChars ext ->
  path.extname (stem ++ "." ++ ext) = "." ++ ext.
Proof.
  intros Hstem Hslash Hext Hplain.
  assert (Hlen : (0 < String.length ext)%nat).
  { destruct ext; [contradiction | simpl; lia]. }
  unfold path.extname, path.extScan.
  rewrite backwards_dotted, !length_append. cbn [String.length].
  rewrite extLoop_name_dot
    by (try (now apply plainChars_backwards); rewrite length_rev, chars_length; lia).
  rewrite length_rev, chars_length.
  unfold path.endsWithSlash in Hslash.
  destruct (rev (list_ascii_of_string stem)) as [|c backwards] eqn:E.
  { destruct stem; [contradiction|]. simpl in E. now apply app_eq_nil in E as [_ E]. }
  set (i := (Z.of_nat (String.length stem + (1 + String.length ext)) - 1)%Z).
  set (dot := (i - Z.of_nat (String.length ext))%Z).
  assert (Hdot : dot = Z.of_nat (String.length stem)) by (subst dot i; lia).
  assert (Hkeep : exists pre, pre <> 0%Z
            /\ path.extLoop (c :: backwards) (dot - 1)
                 (path.mkExtScan dot 0 (i + 1) false 0)
               = path.extLoop backwards (dot - 1 - 1)
                   (path.mkExtScan dot 0 (i + 1) false pre)).
  { cbn [path.extLoop].
    rewrite extStep_seen by (try assumption; subst i; lia).
    destruct (c =? ".")%char.
    - exists 1%Z. split; [lia | reflexivity].
    - exists (-1)%Z. split; [lia | reflexivity]. }
  destruct Hkeep as (pre & Hpre & ->).
  destruct (extLoop_keeps backwards (dot - 1 - 1)%Z (path.mkExtScan dot 0 (i + 1) false pre))
    as (H1 & H2 & H3); cbn [path.startDot path.endIdx path.preDotState];
    try lia; try (subst i; lia).
  cbn [path.startDot path.endIdx path.preDotState] in H1, H2.
  unfold path.extNone. rewrite H1, H2.
  replace (dot =? -1)%Z with false by (symmetry; apply Z.eqb_neq; lia).
  replace (i + 1 =? -1)%Z with false by (symmetry; apply Z.eqb_neq; subst i; lia).
  apply Z.eqb_neq in H3. rewrite H3.
  replace (dot =? i + 1 - 1)%Z with false by (symmetry; apply Z.eqb_neq; subst dot; lia).
  rewrite andb_false_r. cbn [orb andb].
  replace (Z.to_nat dot) with (String.length stem) by lia.
  replace (Z.to_nat (i + 1 - dot)) with (String.length ("." ++ ext))
    by (cbn [append String.length]; subst dot i; lia).
  apply substring_suffix.
Qed.

Lemma extNone_nothing_before_dot st : path.preDotState st = 0%Z -> path.extNone st = true.
Proof.
  intros H. unfold path.extNone. rewrite H. change (0 =? 0)%Z with true.
  now rewrite orb_true_r.
Qed.

Lemma extNone_no_dot st : path.startDot st = (-1)%Z -> path.extNone st = true.
Proof. intros H. unfold path.extNone. rewrite H. reflexivity. Qed.

(** The extension of a name that starts with its only dot, and of a name
    without dot, is empty. *)
Lemma extname_dotfile prefix name :
  prefix = "" \/ (exists q, prefix = q ++ "/") ->
  plainChars name ->
  path.extname (prefix ++ "." ++ name) = ""
  /\ (name <> "" -> path.extname (prefix ++ name) = "").
Proof.
  intros Hprefix Hplain. split.
  - unfold path.extname, path.extScan.
    rewrite backwards_dotted, !length_append. cbn [String.length].
    rewrite extLoop_name_dot
      by (try (now apply plainChars_backwards); rewrite length_rev, chars_length; lia).
    destruct Hprefix as [-> | (q & ->)].
    + cbn [list_ascii_of_string rev path.extLoop].
      now rewrite extNone_nothing_before_dot.
    + rewrite chars_append, rev_app_distr.
      cbn [list_ascii_of_string rev app path.extLoop]. unfold path.extStep.
      cbn [Ascii.eqb Bool.eqb andb path.matchedSlash negb].
      now rewrite extNone_nothing_before_dot.
  - intros Hname.
    assert (Hlen : (0 < String.length name)%nat).
    { destruct name; [contradiction | simpl; lia]. }
    assert (Hback : rev (list_ascii_of_string name) <> []).
    { destruct name as [|c name]; [contradiction|].
      simpl. intros H. now apply app_eq_nil in H as [_ H]. }
    unfold path.extname, path.extScan.
    rewrite chars_append, rev_app_distr, length_append.
    rewrite extLoop_name by (try assumption; try (now apply plainChars_backwards); lia).
    destruct Hprefix as [-> | (q & ->)].
    + cbn [list_ascii_of_string rev path.extLoop].
      now rewrite extNone_no_dot.
    + rewrite chars_append, rev_app_distr.
      cbn [list_ascii_of_string rev app path.extLoop]. unfold path.extStep.
      cbn [Ascii.eqb Bool.eqb andb path.matchedSlash negb].
      now rewrite extNone_no_dot.
Qed.

Lemma getLanguageId_dotted stem ext :
  stem <> "" -> path.endsWithSlash stem = false ->
  ext <> "" -> plainChars ext ->
  getLanguageId (stem ++ "." ++ ext)
  = orEmpty (property langMap ("." ++ Js.toLowerCase ext)).
Proof.
  intros Hstem Hslash Hext Hplain. unfold getLanguageId.
  now rewrite extname_dotted.
Qed.

(** X10. For a path that ends in [<stem>.<ext>], where the stem is not
    empty and does not end with a separator and [ext] is not empty and
    has neither dot nor separator, the language is decided by what
    follows the last dot alone: [path.extname] is '.<ext>', and the
    identifier is the entry of the table under '.<ext>' in lower case,
    empty when there is none. *)
Theorem getLanguageId_by_last_extension stem ext :
  stem <> "" -> path.endsWithSlash stem = false ->
  ext <> "" -> plainChars ext ->
  path.extname (stem ++ "." ++ ext) = "." ++ ext
  /\ getLanguageId (stem ++ "." ++ ext)
     = match property langMap ("." ++ Js.toLowerCase ext) with
       | Some lang => lang
       | None => ""
       end.
Proof.
  intros Hstem Hslash Hext Hplain. split; [now apply extname_dotted|].
  rewrite getLanguageId_dotted by assumption.
  destruct (property langMap ("." ++ Js.toLowerCase ext)) as [lang|] eqn:E; [|reflexivity].
  unfold orEmpty.
  assert (Hvalues : forall key value, property langMap key = Some value -> Js.truthy value = true).
  { intros key value. unfold langMap, property.
    repeat match goal with
           | |- context [if ?b then _ else _] => destruct b
           end; intros [= <-] || discriminate; reflexivity. }
  now rewrite (Hvalues _ _ E).
Qed.

(** X11. A file whose name starts with its only dot (as '.env', '.js'
    or '.gitignore') and a file whose name has no dot (as 'Makefile')
    have no language, in whatever directory they are: the part after a
    leading dot is not an extension. *)
Theorem getLanguageId_dotfile_or_no_dot prefix name :
  prefix = "" \/ (exists q, prefix = q ++ "/") ->
  plainChars name ->
  getLanguageId (prefix ++ "." ++ name) = ""
  /\ (name <> "" -> getLanguageId (prefix ++ name) = "").
Proof.
  intros Hprefix Hplain.
  destruct (extname_dotfile prefix name Hprefix Hplain) as [Hdot Hnone].
  split.
  - unfold getLanguageId. now rewrite Hdot.
  - intros Hname. unfold getLanguageId. now rewrite (Hnone Hname).
Qed.

(** X12. Every entry of the table is in force: for each pair of an
    extension and an identifier in [langMap], a file named by a stem
    (not empty, not ending with a separator) followed by that extension
    gets that identifier.  No key is shadowed by another, misses the
    leading dot or has an upper-case letter the lookup could not reach,
    and no identifier is empty. *)
Theorem langMap_entries_in_force key lang stem :
  In (key, lang) langMap ->
  stem <> "" -> path.endsWithSlash stem = false ->
  getLanguageId (stem ++ key) = lang.
Proof.
  intros Hin Hstem Hslash. unfold langMap in Hin. cbn [In] in Hin.
  repeat (destruct Hin as [Hin|Hin];
          [injection Hin as <- <-;
           match goal with
           | |- getLanguageId (stem ++ String "."%char ?ext) = _ =>
               change (stem ++ String "."%char ext) with (stem ++ "." ++ ext);
               rewrite (getLanguageId_dotted stem ext Hstem Hslash);
               [reflexivity | discriminate | repeat constructor; discriminate]
           end|]).
  destruct Hin.
Qed.

Lemma getLanguageId_by_last_extension_witness :
  path.extname "/proj/archive.tar.JSON" = ".JSON"
  /\ getLanguageId "/proj/archive.tar.JSON" = "json".
Proof.
  apply (getLanguageId_by_last_extension "/proj/archive.tar" "JSON").
  - discriminate.
  - reflexivity.
  - discriminate.
  - repeat constructor; discriminate.
Defined.

Lemma getLanguageId_dotfile_or_no_dot_witness :
  getLanguageId "/proj/.js" = "" /\ getLanguageId "/proj/Makefile" = "".
Proof.
  split.
  - destruct (getLanguageId_dotfile_or_no_dot "/proj/" "js") as [Hdot _].
    + right. now exists "/proj".
    + repeat constructor; discriminate.
    + exact Hdot.
  - destruct (getLanguageId_dotfile_or_no_dot "/proj/" "Makefile") as [_ Hnone].
    + right. now exists "/proj".
    + repeat constructor; discriminate.
    + apply Hnone. discriminate.
Defined.

Lemma langMap_entries_in_force_witness :
  getLanguageId "/proj/src/App.tsx" = "typescriptreact".
Proof.
  apply (langMap_entries_in_force ".tsx" "typescriptreact" "/proj/src/App").
  - unfold langMap. cbn [In]. do 17 right. left. reflexivity.
  - discriminate.
  - reflexivity.
Defined.


(** ** The selection and the command *)

Lemma existsb_fsPath_false (u : Uri) (selected : list Uri) :
  existsb (fun r => fsPath r =? fsPath u) selected = false ->
  ~ In (fsPath u) (map fsPath selected).
Proof.
  intros Hnone Hin. apply in_map_iff in Hin as (r & Hr & Hin).
  assert (Hsome : existsb (fun r => fsPath r =? fsPath u) selected = true).
  { apply existsb_exists. exists r. split; [exact Hin | now apply String.eqb_eq]. }
  congruence.
Qed.

(** X13. The resource the command is invoked on is never lost, and
    neither is the multi-selection: when the first argument has a
    non-empty path, some resource of the selection has that path; when
    the second argument is an array, the selection is that array,
    possibly after the first argument. *)
Theorem resourcesOfArgs_keeps_selection :
  (forall u rest,
      fsPath u <> "" ->
      exists r, In r (resourcesOfArgs (ArgUri u :: rest)) /\ fsPath r = fsPath u)
  /\ (forall first selected rest,
        resourcesOfArgs (first :: ArgArray selected :: rest) = selected
        \/ exists u, first = ArgUri u
                     /\ resourcesOfArgs (first :: ArgArray selected :: rest) = u :: selected).
Proof.
  split.
  - intros u rest Hpath.
    assert (Hfirst : firstResource (ArgUri u :: rest) = Some u).
    { unfold firstResource, Js.truthy.
      destruct (String.eqb_spec (fsPath u) ""); [contradiction | reflexivity]. }
    unfold resourcesOfArgs. rewrite Hfirst.
    destruct rest as [|[v|selected|] rest'];
      try (exists u; split; [now left | reflexivity]).
    destruct (existsb (fun r => fsPath r =? fsPath u) selected) eqn:E.
    + apply existsb_exists in E as (r & Hin & Heq).
      exists r. split; [exact Hin | now apply String.eqb_eq].
    + exists u. split; [now left | reflexivity].
  - intros first selected rest. unfold resourcesOfArgs.
    destruct (firstResource (first :: ArgArray selected :: rest)) as [u|] eqn:Hfirst;
      [|now left].
    destruct (existsb (fun r => fsPath r =? fsPath u) selected); [now left|].
    right. exists u. split; [|reflexivity].
    unfold firstResource in Hfirst. destruct first as [v| |]; try discriminate.
    destruct (Js.truthy (fsPath v)); [|discriminate]. now injection Hfirst as ->.
Qed.

(** X14. Adding the first argument to a multi-selection brings no path
    twice: when the paths of the array are distinct, so are the paths of
    the selection. *)
Theorem resourcesOfArgs_no_duplicate first selected rest :
  NoDup (map fsPath selected) ->
  NoDup (map fsPath (resourcesOfArgs (first :: ArgArray selected :: rest))).
Proof.
  intros Hnodup. unfold resourcesOfArgs.
  destruct (firstResource (first :: ArgArray selected :: rest)) as [u|]; [|exact Hnodup].
  destruct (existsb (fun r => fsPath r =? fsPath u) selected) eqn:E; [exact Hnodup|].
  cbn [map]. constructor; [|exact Hnodup].
  now apply existsb_fsPath_false.
Qed.

(** X15. What is packed is, in this order of precedence, the selection
    found in the arguments, else the file of the active editor, else
    what the dialog gives (nothing when it is dismissed); the dialog is
    opened exactly when the arguments give no resource and no editor is
    active, and choosing the selection never throws. *)
Theorem selectResources_precedence host args :
  (resourcesOfArgs args <> [] ->
   selectResources host args = ([], Ok (resourcesOfArgs args)))
  /\ (forall fileName,
        resourcesOfArgs args = [] -> activeTextEditor host = Some fileName ->
        selectResources host args = ([], Ok [Uri_file fileName]))
  /\ (resourcesOfArgs args = [] -> activeTextEditor host = None ->
      selectResources host args
      = ([OpenDialog], Ok (match showOpenDialog host with
                           | Some result => result
                           | None => []
                           end)))
  /\ (In OpenDialog (events (selectResources host args))
      <-> resourcesOfArgs args = [] /\ activeTextEditor host = None).
Proof.
  assert (Hnone : resourcesOfArgs args = [] -> activeTextEditor host = None ->
                  selectResources host args
                  = ([OpenDialog], Ok (match showOpenDialog host with
                                       | Some result => result
                                       | None => []
                                       end))).
  { intros Hargs Heditor. unfold selectResources. rewrite Hargs, Heditor.
    cbn [List.length Nat.eqb]. unfold bind, emit, ret.
    now destruct (showOpenDialog host). }
  assert (Heditor : forall fileName,
            resourcesOfArgs args = [] -> activeTextEditor host = Some fileName ->
            selectResources host args = ([], Ok [Uri_file fileName])).
  { intros fileName Hargs Hed. unfold selectResources. now rewrite Hargs, Hed. }
  assert (Hargs : resourcesOfArgs args <> [] ->
                  selectResources host args = ([], Ok (resourcesOfArgs args))).
  { intros Hne. unfold selectResources.
    destruct (resourcesOfArgs args); [contradiction | reflexivity]. }
  split; [exact Hargs|]. split; [exact Heditor|]. split; [exact Hnone|].
  split.
  - intros Hin.
    destruct (resourcesOfArgs args) as [|r selected] eqn:E.
    + destruct (activeTextEditor host) as [fileName|] eqn:Hed; [|now split].
      rewrite (Heditor fileName eq_refl eq_refl) in Hin. destruct Hin.
    + rewrite Hargs in Hin by discriminate. destruct Hin.
  - intros [Hempty Hed]. rewrite (Hnone Hempty Hed). now left.
Qed.

Lemma resourcesOfArgs_keeps_selection_witness :
  resourcesOfArgs [ArgUri (mkUri "/proj/a.py"); ArgArray [mkUri "/proj/sub"; mkUri "/proj/a.py"]]
  = [mkUri "/proj/sub"; mkUri "/proj/a.py"]
  /\ exists r, In r (resourcesOfArgs [ArgUri (mkUri "/proj/a.py"); ArgArray [mkUri "/proj/sub"]])
               /\ fsPath r = "/proj/a.py".
Proof.
  destruct resourcesOfArgs_keeps_selection as [Hfirst Harray]. split.
  - destruct (Harray (ArgUri (mkUri "/proj/a.py")) [mkUri "/proj/sub"; mkUri "/proj/a.py"] [])
      as [H | (u & _ & H)]; [exact H | discriminate H].
  - apply (Hfirst (mkUri "/proj/a.py") [ArgArray [mkUri "/proj/sub"]]). discriminate.
Defined.

Lemma resourcesOfArgs_no_duplicate_witness :
  NoDup (map fsPath
           (resourcesOfArgs [ArgUri (mkUri "/proj/a.py");
                             ArgArray [mkUri "/proj/sub"; mkUri "/proj/a.py"]])).
Proof.
  apply (resourcesOfArgs_no_duplicate (ArgUri (mkUri "/proj/a.py"))
           [mkUri "/proj/sub"; mkUri "/proj/a.py"] []).
  repeat constructor; simpl; intuition discriminate.
Defined.

Lemma selectResources_precedence_witness :
  selectResources editingHost [] = ([], Ok [mkUri "/proj/a.py"])
  /\ selectResources editingHost [ArgUri (mkUri "/proj/sub")] = ([], Ok [mkUri "/proj/sub"])
  /\ selectResources bareHost [ArgOther] = ([OpenDialog], Ok []).
Proof.
  split; [|split].
  - apply (proj1 (proj2 (selectResources_precedence editingHost [])) "/proj/a.py");
      reflexivity.
  - apply (proj1 (selectResources_precedence editingHost [ArgUri (mkUri "/proj/sub")])).
    discriminate.
  - apply (proj1 (proj2 (proj2 (selectResources_precedence bareHost [ArgOther]))));
      reflexivity.
Defined.

Lemma fileEvents_formatter disk host files :
  Forall isFormatterEvent (flat_map (fileEvents disk host) files).
Proof.
  induction files as [|fileUri files IH]; [constructor|].
  cbn [flat_map]. apply Forall_app. split; [|exact IH].
  unfold fileEvents, readWarning.
  destruct (readFileSync disk (fsPath fileUri)); [now repeat constructor|].
  destruct (statSync disk (fsPath fileUri)); now repeat constructor.
Qed.




(** X17. A document is opened exactly when the resolution returns at
    least one file; it is then the text of the formatter for the
    resolved files, opened as markdown.  The message of success is shown
    in the same case only, and counts every resolved file, the files the
    formatter skipped included. *)
Theorem packSelection_opens_document disk host fuel now selected :
  (forall content language,
      In (OpenTextDocument content language)
         (events (packSelection disk host fuel now selected))
      <-> exists files,
            files <> []
            /\ outcome (getFilesFromResources disk fuel selected) = Ok files
            /\ content = packedDocument disk host now files
            /\ language = "markdown")
  /\ (forall msg,
        In (ShowInformationMessage msg)
           (events (packSelection disk host fuel now selected))
        <-> exists files,
              files <> []
              /\ outcome (getFilesFromResources disk fuel selected) = Ok files
              /\ msg = "Successfully packed " ++ Js.ofNat (List.length files) ++ " files.").
Proof.
  destruct selected as [|r rest].
  { split; intros; (split; [intros [H|[]]; discriminate H|]);
      intros (files & Hne & Hok & _); injection Hok as <-; contradiction. }
  rewrite packSelection_run by discriminate. cbv zeta.
  pose proof (getFilesFromResources_fs_only disk fuel (r :: rest)) as Hfs.
  rewrite Forall_forall in Hfs.
  destruct (outcome (getFilesFromResources disk fuel (r :: rest)))
    as [[|f files]|e|] eqn:Hout; unfold events at 1 3, fst.
  - split; intros; (split; [|intros (fs & Hne & [= <-] & _); contradiction]);
      (intros [H|H]; [discriminate H|]);
      (apply in_app_or in H as [H|[H|[]]]; [destruct (Hfs _ H) | discriminate H]).
  - pose proof (fileEvents_formatter disk host (f :: files)) as Hfmt.
    rewrite Forall_forall in Hfmt.
    split; intros; split.
    + intros [H|H]; [discriminate H|].
      apply in_app_or in H as [H|[H|H]]; [destruct (Hfs _ H) | discriminate H|].
      apply in_app_or in H as [H|H]; [destruct (Hfmt _ H)|].
      destruct H as [H|[H|[H|[]]]]; try discriminate H.
      injection H as <- <-. exists (f :: files).
      split; [discriminate | repeat split].
    + intros (fs & _ & [= <-] & -> & ->).
      right. apply in_or_app. right. right. apply in_or_app. right. now left.
    + intros [H|H]; [discriminate H|].
      apply in_app_or in H as [H|[H|H]]; [destruct (Hfs _ H) | discriminate H|].
      apply in_app_or in H as [H|H]; [destruct (Hfmt _ H)|].
      destruct H as [H|[H|[H|[]]]]; try discriminate H.
      injection H as <-. exists (f :: files).
      split; [discriminate | repeat split].
    + intros (fs & _ & [= <-] & ->).
      right. apply in_or_app. right. right. apply in_or_app. right.
      right. right. now left.
  - split; intros; (split; [|intros (fs & _ & Hok & _); discriminate Hok]);
      (intros [H|H]; [discriminate H|]);
      (apply in_app_or in H as [H|[H|[]]]; [destruct (Hfs _ H) | discriminate H]).
  - split; intros; (split; [|intros (fs & _ & Hok & _); discriminate Hok]);
      (intros [H|H]; [discriminate H | destruct (Hfs _ H)]).
Qed.


Lemma packSelection_opens_document_witness :
  In (OpenTextDocument
        (packedDocument sampleDisk bareHost sampleNow [mkUri "/proj/secret.txt"]) "markdown")
     (events (packSelection sampleDisk bareHost 1 sampleNow [mkUri "/proj/secret.txt"]))
  /\ In (ShowInformationMessage "Successfully packed 1 files.")
        (events (packSelection sampleDisk bareHost 1 sampleNow [mkUri "/proj/secret.txt"])).
Proof.
  destruct (packSelection_opens_document sampleDisk bareHost 1 sampleNow
              [mkUri "/proj/secret.txt"]) as [Hdoc Hmsg].
  split.
  - apply Hdoc. exists [mkUri "/proj/secret.txt"].
    split; [discriminate | repeat split].
  - apply Hmsg. exists [mkUri "/proj/secret.txt"].
    split; [discriminate | repeat split].
Defined.

(** ** The resolution and the disk *)

Lemma staysVisible_isResolverCall disk dirPath ev :
  staysVisible disk dirPath ev -> isResolverCall ev.
Proof. destruct ev; simpl; tauto. Qed.

Lemma resourcesLoop_resolver_calls disk fuel resources : forall allFiles,
  Forall isResolverCall (events (resourcesLoop disk fuel resources allFiles)).
Proof.
  induction resources as [|r rest IH]; intros allFiles; cbn [resourcesLoop].
  - constructor.
  - apply Forall_events_bind.
    + unfold fs_statSync, call.
      destruct (statSync disk (fsPath r)); now repeat constructor.
    + intros stat _. apply Forall_events_bind; [|intros; apply IH].
      destruct (isDirectory stat); [|constructor].
      apply Forall_events_bind; [|intros; constructor].
      destruct (walk_invariant disk fuel (fsPath r) []) as [Hev _].
      revert Hev. apply Forall_impl. intros ev. apply staysVisible_isResolverCall.
Qed.

(** X19. The resolution touches the disk through [statSync] and
    [readdirSync] only: it reads no file and shows nothing, however it
    ends. *)
Theorem getFilesFromResources_reads_no_file disk fuel resources :
  Forall isResolverCall (events (getFilesFromResources disk fuel resources))
  /\ readPaths (events (getFilesFromResources disk fuel resources)) = [].
Proof.
  pose proof (resourcesLoop_resolver_calls disk fuel resources []) as Hcalls.
  split; [exact Hcalls|].
  unfold getFilesFromResources.
  induction Hcalls as [|ev trace Hev _ IH]; [reflexivity|].
  destruct ev; cbn [readPaths]; try exact IH; destruct Hev.
Qed.

(** X20. A selected directory is walked whatever its own name, a hidden
    one too: when its entries can be looked at and those that are not
    hidden are files, its resolution looks at it, lists it, looks at
    each entry, and returns its visible entries in listing order. *)
Theorem getFilesFromResources_flat_directory disk fuel resource st files :
  statSync disk (fsPath resource) = inr st -> isDirectory st = true ->
  readdirSync disk (fsPath resource) = inr files ->
  Forall (fun name =>
            exists entry, statSync disk (path.join (fsPath resource) name) = inr entry
                          /\ (Js.startsWith name "." = false -> isDirectory entry = false))
         files ->
  getFilesFromResources disk (S fuel) [resource]
  = (StatSync (fsPath resource) :: ReaddirSync (fsPath resource)
       :: map (fun name => StatSync (path.join (fsPath resource) name)) files,
     Ok (map (fun name => Uri_file (path.join (fsPath resource) name))
             (filter (fun name => negb (Js.startsWith name ".")) files))).
Proof.
  intros Hstat Hdir Hlist Hentries.
  rewrite (getFilesFromResources_directory disk (S fuel) resource st Hstat Hdir).
  now rewrite (getAllFilesFromDir_flat_run disk fuel (fsPath resource) files [] Hlist Hentries).
Qed.

Lemma getFilesFromResources_flat_directory_witness :
  Js.startsWith (path.basename "/proj/sub/.git") "." = true
  /\ getFilesFromResources sampleDisk 1 [mkUri "/proj/sub/.git"]
     = ([StatSync "/proj/sub/.git"; ReaddirSync "/proj/sub/.git";
         StatSync "/proj/sub/.git/config"],
        Ok [mkUri "/proj/sub/.git/config"]).
Proof.
  split; [reflexivity|].
  apply (getFilesFromResources_flat_directory sampleDisk 0 (mkUri "/proj/sub/.git")
           (mkStats true 4096 epoch) ["config"]); try reflexivity.
  repeat (constructor; [eexists; split; [reflexivity | intros _; reflexivity]|]).
  constructor.
Defined.
